(** * Line coverage reports of s2e-env: [s2e_env/commands/code_coverage/lcov.py]

    A shallow embedding of the coverage aggregation and LCOV emission code,
    and the properties of its merger, extractor, writer, run selector and
    per-module loop.

    Python values are modelled as follows.
    - [int] is [Z] (unbounded).
    - [str] is [string]; a line feed is the character of code 10.
    - [dict] is an association list in insertion order, the order in which
      Python iterates it; a well-formed dictionary has no repeated key.
    - The address-count dictionaries are mutable objects that the code
      shares between variables, so they live in a heap and the variables
      hold locations.
    - Logging, file output and the calls to the collaborators of the module
      are recorded as a trace of events; exceptions are values of [exn]. *)

From Stdlib Require Import List String Ascii ZArith Lia Bool Sorted.
From Stdlib Require Import Decimal DecimalString DecimalZ DecimalPos.
Import ListNotations.

Local Open Scope string_scope.
Local Open Scope list_scope.
Local Open Scope Z_scope.

Set Implicit Arguments.

(** ** Python dictionaries *)

Module PyDict.

Section Ops.
Context {K V : Type}.
Variable eqb : K -> K -> bool.

(** [d.get(k)], [None] when [k not in d]. *)
Fixpoint get (k : K) (d : list (K * V)) : option V :=
  match d with
  | [] => None
  | (k', v) :: r => if eqb k k' then Some v else get k r
  end.

(** [k in d]. *)
Definition mem (k : K) (d : list (K * V)) : bool :=
  match get k d with Some _ => true | None => false end.

(** [d[k] = v]: the value of an existing key is replaced where the key
    stands, a new key goes to the end. *)
Fixpoint set (k : K) (v : V) (d : list (K * V)) : list (K * V) :=
  match d with
  | [] => [(k, v)]
  | (k', v') :: r =>
      if eqb k k' then (k', v) :: r else (k', v') :: set k v r
  end.

Definition keys (d : list (K * V)) : list K := map fst d.
Definition items (d : list (K * V)) : list (K * V) := d.

(** A dictionary holds each key once. *)
Definition wf (d : list (K * V)) : Prop := NoDup (keys d).
End Ops.

End PyDict.

(** ** Python strings: splitting, [int()] and ['%d'] *)

Module PyStr.

(** The line feed character, ['\n']. *)
Definition nl : string := String (ascii_of_nat 10) EmptyString.

Fixpoint all_chars (p : ascii -> bool) (s : string) : bool :=
  match s with
  | EmptyString => true
  | String c r => p c && all_chars p r
  end.

Definition is_digit (c : ascii) : bool :=
  let n := nat_of_ascii c in (Nat.leb 48 n && Nat.leb n 57)%bool.

(** The ASCII characters that [str.strip()] and [int()] treat as blanks. *)
Definition is_space (c : ascii) : bool :=
  let n := nat_of_ascii c in
  ((Nat.leb 9 n && Nat.leb n 13) || (Nat.leb 28 n && Nat.leb n 32))%bool.

(** ['%d' % z]. *)
Definition fmt_d (z : Z) : string := NilZero.string_of_int (Z.to_int z).

(** [s.split(sep)] for a separator of one character: never empty, and
    [''.split('-')] is [['']]. *)
Fixpoint split (sep : ascii) (s : string) : list string :=
  match s with
  | EmptyString => [EmptyString]
  | String c r =>
      if Ascii.eqb c sep then EmptyString :: split sep r
      else match split sep r with
           | [] => [String c EmptyString]
           | w :: ws => String c w :: ws
           end
  end.

Fixpoint lstrip (p : ascii -> bool) (s : string) : string :=
  match s with
  | EmptyString => EmptyString
  | String c r => if p c then lstrip p r else s
  end.

Fixpoint rstrip (p : ascii -> bool) (s : string) : string :=
  match s with
  | EmptyString => EmptyString
  | String c r =>
      match rstrip p r with
      | EmptyString => if p c then EmptyString else String c EmptyString
      | r' => String c r'
      end
  end.

Definition strip (s : string) : string := rstrip is_space (lstrip is_space s).

(** The digits of a decimal literal: groups of digits, with single
    underscores allowed between two digits. *)
Fixpoint digitpart (after_digit : bool) (s : string) : bool :=
  match s with
  | EmptyString => after_digit
  | String c r =>
      if is_digit c then digitpart true r
      else if Ascii.eqb c "_" then (after_digit && digitpart false r)%bool
      else false
  end.

Fixpoint drop_underscores (s : string) : string :=
  match s with
  | EmptyString => EmptyString
  | String c r =>
      if Ascii.eqb c "_" then drop_underscores r
      else String c (drop_underscores r)
  end.

(** [int(s)] in base ten, for ASCII text: blanks around the literal are
    dropped, one sign is allowed, and anything else than a digit part is a
    [ValueError] ([None]).  Digits outside ASCII are not modelled. *)
Definition int (s : string) : option Z :=
  let s := strip s in
  let '(neg, body) :=
    match s with
    | String c r =>
        if Ascii.eqb c "-" then (true, r)
        else if Ascii.eqb c "+" then (false, r)
        else (false, s)
    | EmptyString => (false, s)
    end in
  if digitpart false body then
    match NilZero.uint_of_string (drop_underscores body) with
    | Some d => Some (if neg then - Z.of_uint d else Z.of_uint d)
    | None => None
    end
  else None.

End PyStr.

(** ** [os.path] on POSIX *)

Module OsPath.

Definition is_sep (c : ascii) : bool := Ascii.eqb c "/".

(** [(p[:i], p[i:])] for [i = p.rfind('/') + 1]. *)
Fixpoint rsplit (p : string) : string * string :=
  match p with
  | EmptyString => (EmptyString, EmptyString)
  | String c r =>
      let '(h, t) := rsplit r in
      match h with
      | EmptyString =>
          if is_sep c then (String c EmptyString, t)
          else (EmptyString, String c t)
      | _ => (String c h, t)
      end
  end.

Definition basename (p : string) : string := snd (rsplit p).

(** The head keeps its slashes only when it is made of slashes. *)
Definition dirname (p : string) : string :=
  let head := fst (rsplit p) in
  if PyStr.all_chars is_sep head then head else PyStr.rstrip is_sep head.

Definition starts_with_sep (s : string) : bool :=
  match s with
  | String c _ => is_sep c
  | EmptyString => false
  end.

Fixpoint ends_with_sep (s : string) : bool :=
  match s with
  | EmptyString => false
  | String c EmptyString => is_sep c
  | String _ r => ends_with_sep r
  end.

Definition is_empty (s : string) : bool :=
  match s with
  | EmptyString => true
  | String _ _ => false
  end.

(** [os.path.join(a, b)]: an absolute [b] replaces [a]; otherwise the parts
    are joined by one slash, unless [a] is empty or already ends in one. *)
Definition join (a b : string) : string :=
  if starts_with_sep b then b
  else if (is_empty a || ends_with_sep a)%bool then (a ++ b)%string
  else (a ++ "/" ++ b)%string.

End OsPath.

(** ** The program *)

Module Lcov.

Import PyStr.

(** *** Data model *)

(** Address to execution count, a [dict] of [int] to [int]. *)
Definition AddressCount := list (Z * Z).

(** One translated block: start address, an unused field, size in bytes. *)
Definition RawBlockEntry := (Z * Z * Z)%type.

(** Source file to line number to execution count. *)
Definition FileLineCoverage := list (string * list (Z * Z)).

(** The heap of address-count dictionaries.  A location is the index of
    its object; objects are never freed. *)
Definition loc := nat.
Definition heap := list AddressCount.

(** Module path to the address-count object of the module. *)
Definition ModuleCoverage := list (string * loc).

Definition deref (h : heap) (l : loc) : AddressCount := nth l h [].

Fixpoint store (h : heap) (l : loc) (d : AddressCount) : heap :=
  match h, l with
  | [], _ => []
  | _ :: r, O => d :: r
  | x :: r, S l' => x :: store r l' d
  end.

Definition alloc (h : heap) (d : AddressCount) : loc * heap :=
  (List.length h, h ++ [d]).

(** What a module-coverage dictionary holds, reading through the heap. *)
Definition contents (h : heap) (coverage : ModuleCoverage)
  : list (string * AddressCount) :=
  map (fun '(m, l) => (m, deref h l)) coverage.

(** [d1 == d2] on dictionaries: as many keys, and each key of [d1] bound
    to the same value in [d2]. *)
Definition dict_eqb (d1 d2 : AddressCount) : bool :=
  (Nat.eqb (List.length d1) (List.length d2) &&
   forallb (fun '(k, v) =>
              match PyDict.get Z.eqb k d2 with
              | Some v' => Z.eqb v v'
              | None => false
              end) d1)%bool.

(** *** Address Coverage Merger: [_merge_coverage] *)

(** One turn of [for addr, cnt in module_coverage.items()].  The items
    view is live: [cnt] is the count that [module_coverage] holds for
    [addr] when the turn starts. *)
Definition merge_addr (cov module_coverage : loc) (h : heap) (addr : Z) : heap :=
  match PyDict.get Z.eqb addr (deref h module_coverage) with
  | None => h
  | Some cnt =>
      match PyDict.get Z.eqb addr (deref h cov) with
      | Some c => store h cov (PyDict.set Z.eqb addr (c + cnt) (deref h cov))
      | None => store h cov (PyDict.set Z.eqb addr cnt (deref h cov))
      end
  end.

(** [coverage[module_name] = module_coverage] binds the module to the
    object that was passed, not to a copy; the loop that follows runs in
    both cases.  The keys of [module_coverage] do not change while the loop
    runs (a key is only added to [cov] when the two objects differ), so
    the loop visits the keys found at its start. *)
Definition _merge_coverage (h : heap) (coverage : ModuleCoverage)
    (module_name : string) (module_coverage : loc) : heap * ModuleCoverage :=
  let coverage :=
    if negb (PyDict.mem String.eqb module_name coverage)
    then PyDict.set String.eqb module_name module_coverage coverage
    else coverage in
  match PyDict.get String.eqb module_name coverage with
  | None => (h, coverage)
  | Some cov =>
      (fold_left (merge_addr cov module_coverage)
                 (PyDict.keys (deref h module_coverage)) h,
       coverage)
  end.

(** *** Events, exceptions and the monad of the effectful code *)

Inductive level := INFO | WARNING | ERROR | SUCCESS.

Inductive exn :=
| ValueError (msg : string)
| OSError (msg : string)
| ErrorReturnCode (msg : string)
| CommandError (msg : string)
| OtherException (msg : string).

(** [str(e)]. *)
Definition str (e : exn) : string :=
  match e with
  | ValueError m | OSError m | ErrorReturnCode m | CommandError m
  | OtherException m => m
  end.

Inductive event :=
| EvLog (lv : level) (msg : string)
| EvTbFiles (directory : string)
| EvGetCoverage (module_path : string) (addr_counts : AddressCount) (cov : bool)
| EvOpen (path : string)
| EvWrite (path : string) (data : string)
| EvClose (path : string)
| EvGenHtml (lcov_info_path lcov_html_dir : string).

(** A computation returns a value or raises, and leaves the events it
    performed, oldest first. *)
Definition M (A : Type) : Type := ((exn + A) * list event)%type.

Definition ret {A} (a : A) : M A := (inr a, []).
Definition raise {A} (e : exn) : M A := (inl e, []).
Definition tell (evs : list event) : M unit := (inr tt, evs).

Definition bind {A B} (m : M A) (k : A -> M B) : M B :=
  match m with
  | (inl e, t) => (inl e, t)
  | (inr a, t) => let '(r, t') := k a in (r, t ++ t')
  end.

Notation "x <- m ;; k" := (bind m (fun x => k))
  (at level 61, m at next level, right associativity).
Notation "m ;; k" := (bind m (fun _ => k))
  (at level 61, right associativity).

(** [try: body / except Exception as e: handler(e)]. *)
Definition try_except {A} (body : M A) (handler : exn -> M A) : M A :=
  match body with
  | (inl e, t) => let '(r, t') := handler e in (r, t ++ t')
  | (inr a, t) => (inr a, t)
  end.

(** [for x in xs: body(x)]. *)
Fixpoint for_ {A} (xs : list A) (body : A -> M unit) : M unit :=
  match xs with
  | [] => ret tt
  | x :: r => body x ;; for_ r body
  end.

(** A loop that carries local variables [s] through its turns. *)
Fixpoint foldM {A S} (body : S -> A -> M S) (xs : list A) (s : S) : M S :=
  match xs with
  | [] => ret s
  | x :: r => s' <- body s x ;; foldM body r s'
  end.

Definition logger (lv : level) (msg : string) : M unit := tell [EvLog lv msg].

(** [range(lo, hi)]. *)
Definition range (lo hi : Z) : list Z :=
  map (fun i => lo + Z.of_nat i) (seq 0 (Z.to_nat (hi - lo))).

(** The text of the file at [path] after the events of [t]: opening for
    writing empties it, each write appends. *)
Definition file_step (path : string) (text : string) (ev : event) : string :=
  match ev with
  | EvOpen p => if String.eqb p path then EmptyString else text
  | EvWrite p data =>
      if String.eqb p path then (text ++ data)%string else text
  | _ => text
  end.

Definition file_text (path : string) (t : list event) : string :=
  fold_left (file_step path) t EmptyString.

(** The keyword options of the command, with the defaults of
    [options.get]. *)
Record Options := {
  html : bool;
  lcov_out_dir : option string;
  aggregate_outputs : Z;
  s2e_out_dir : list string;
  include_covered_files_only : bool
}.

(** The collaborators of the module and the file system, as the code
    observes them during one call. *)
Record Env := {
  (** [self.project_path(name)] *)
  project_path : string -> string;
  (** [os.path.realpath] *)
  realpath : string -> string;
  (** [os.path.exists] *)
  path_exists : string -> bool;
  (** [open(path, 'w')]: the exception it raises, if any *)
  open_w : string -> option exn;
  (** [aggregate_tb_files(get_tb_files(directory))], or the exception that
      these raise *)
  tb_coverage_files : string -> exn + list (string * list RawBlockEntry);
  (** [SymbolManager(...)]: the exception that building it raises, if any *)
  symbol_manager : option exn;
  (** [syms.get_coverage(module_path, addr_counts, cov)] *)
  get_coverage : string -> AddressCount -> bool -> exn + FileLineCoverage;
  (** [genhtml(lcov_info_path, output_directory=lcov_html_dir, ...)]: the
      exception it raises, if any *)
  genhtml : string -> string -> option exn
}.

Section Program.
Variable E : Env.

(** *** Address Coverage Extractor: [_get_addr_coverage] *)

(** The loop over [range(0, size)] for one block. *)
Definition expand_block (addr_counts : AddressCount) (e : RawBlockEntry)
  : AddressCount :=
  let '(start_addr, _, size) := e in
  fold_left (fun d byte =>
               let addr := start_addr + byte in
               PyDict.set Z.eqb addr 1 d)
            (range 0 size) addr_counts.

(** The local [addr_counts] of one module, as built by the two loops from
    [{}] and handed to [_merge_coverage]. *)
Definition addr_counts_of (coverage : list RawBlockEntry) : AddressCount :=
  fold_left expand_block coverage [].

(** The local dictionary is a fresh object; it is not shared before the
    call of [_merge_coverage], so it is allocated once built. *)
Definition extract_module (st : heap * ModuleCoverage)
    (entry : string * list RawBlockEntry) : heap * ModuleCoverage :=
  let '(h, aggregated_coverage) := st in
  let '(module_path, coverage) := entry in
  let '(addr_counts, h) := alloc h (addr_counts_of coverage) in
  _merge_coverage h aggregated_coverage module_path addr_counts.

Definition _get_addr_coverage (directory : string)
    (st : heap * ModuleCoverage) : M (heap * ModuleCoverage) :=
  logger INFO "Generating translation block coverage information" ;;
  tell [EvTbFiles directory] ;;
  tb_coverage_files <-
    match tb_coverage_files E directory with
    | inl e => raise e
    | inr r => ret r
    end ;;
  ret (fold_left extract_module (PyDict.items tb_coverage_files) st).

(** *** LCOV Writer: [_save_coverage_info] *)

(** [open(path, 'w')]. *)
Definition open_ (path : string) : M unit :=
  match open_w E path with
  | Some e => raise e
  | None => tell [EvOpen path]
  end.

(** The body of [with open(...) as f]: the file is closed when the body
    ends, whether it returns or raises. *)
Definition with_file {A} (path : string) (body : M A) : M A :=
  let '(r, t) := body in (r, t ++ [EvClose path]).

Definition write (path data : string) : M unit := tell [EvWrite path data].

(** The loop over the lines of one file; the state is
    [(num_non_zero_lines, num_instrumented_lines)]. *)
Definition write_line (f : string) (counters : Z * Z) (item : Z * Z)
  : M (Z * Z) :=
  let '(num_non_zero_lines, num_instrumented_lines) := counters in
  let '(line, count) := item in
  write f ("DA:" ++ fmt_d line ++ "," ++ fmt_d count ++ nl) ;;
  let num_non_zero_lines :=
    if negb (count =? 0) then num_non_zero_lines + 1 else num_non_zero_lines in
  ret (num_non_zero_lines, num_instrumented_lines + 1).

(** One turn of [for src_file in file_line_info]; [lines] is
    [file_line_info[src_file]]. *)
Definition write_file (f : string) (ignore_missing_files : bool)
    (entry : string * list (Z * Z)) : M unit :=
  let '(src_file, lines) := entry in
  if (ignore_missing_files && negb (path_exists E src_file))%bool then
    logger WARNING (src_file ++ " does not exist, skipping")
  else
    logger INFO src_file ;;
    write f ("SF:" ++ src_file ++ nl) ;;
    counters <- foldM (write_line f) (PyDict.items lines) (0, 0) ;;
    let '(num_non_zero_lines, num_instrumented_lines) := counters in
    write f ("LH:" ++ fmt_d num_non_zero_lines ++ nl) ;;
    write f ("LF:" ++ fmt_d num_instrumented_lines ++ nl) ;;
    write f ("end_of_record" ++ nl).

Definition _save_coverage_info (lcov_path : string)
    (file_line_info : FileLineCoverage) (ignore_missing_files : bool)
  : M unit :=
  logger INFO ("Writing line coverage to " ++ lcov_path) ;;
  open_ lcov_path ;;
  with_file lcov_path
    (write lcov_path ("TN:" ++ nl) ;;
     for_ (PyDict.items file_line_info)
          (write_file lcov_path ignore_missing_files)).

(** *** HTML Report Driver: [_gen_html] *)

Definition _gen_html (lcov_info_path lcov_html_dir : string) : M unit :=
  tell [EvGenHtml lcov_info_path lcov_html_dir] ;;
  match genhtml E lcov_info_path lcov_html_dir with
  | None => ret tt
  | Some (ErrorReturnCode m) => raise (CommandError m)
  | Some e => raise e
  end.

(** *** Run Selector: [LineCoverage._get_output_folders] *)

(** [int(index)]. *)
Definition int_ (s : string) : M Z :=
  match PyStr.int s with
  | Some n => ret n
  | None =>
      raise (ValueError ("invalid literal for int() with base 10: '" ++ s ++ "'"))
  end.

(** One turn of [for i in range(0, last_n_outputs)]; the state is [ret]. *)
Definition candidate (dirname index : string) (acc : list string) (i : Z)
  : M (list string) :=
  n <- int_ index ;;
  let output_dir := OsPath.join dirname ("s2e-out-" ++ fmt_d (n - i)) in
  if path_exists E output_dir then ret (acc ++ [output_dir]) else ret acc.

Definition _get_output_folders (options : Options) : M (list string) :=
  let last_n_outputs := aggregate_outputs options in
  if negb (last_n_outputs =? 0) then
    let s2e_last := realpath E (project_path E "s2e-last") in
    let dirname := OsPath.dirname s2e_last in
    let base := OsPath.basename s2e_last in
    match split "-" base with
    | [_; _; index] =>
        foldM (candidate dirname index) (range 0 last_n_outputs) []
    | parts =>
        if Nat.ltb (List.length parts) 3 then
          raise (ValueError ("not enough values to unpack (expected 3, got "
                             ++ fmt_d (Z.of_nat (List.length parts)) ++ ")"))
        else raise (ValueError "too many values to unpack (expected 3)")
    end
  else
    let directories := s2e_out_dir options in
    match directories with
    | [] => ret [project_path E "s2e-last"]
    | _ => ret directories
    end.

(** *** Report Orchestrator: [LineCoverage.handle] *)

(** The [try] block of the loop over the modules. *)
Definition report_module (options : Options) (lcov_out_dir : string)
    (item : string * AddressCount) : M unit :=
  let '(module_path, addr_counts) := item in
  let do_gen_html := html options in
  let cov := include_covered_files_only options in
  tell [EvGetCoverage module_path addr_counts cov] ;;
  file_line_info <-
    match get_coverage E module_path addr_counts cov with
    | inl e => raise e
    | inr r => ret r
    end ;;
  let module := OsPath.basename module_path in
  let lcov_info_path := OsPath.join lcov_out_dir (module ++ ".info") in
  _save_coverage_info lcov_info_path file_line_info do_gen_html ;;
  logger SUCCESS ("Line coverage saved to " ++ lcov_info_path) ;;
  if do_gen_html then
    let lcov_html_dir := OsPath.join lcov_out_dir (module ++ "_lcov") in
    _gen_html lcov_info_path lcov_html_dir ;;
    logger SUCCESS
      ("An HTML report is available in " ++ lcov_html_dir ++ "/index.html")
  else ret tt.

(** The body of [for module_path, addr_counts in coverage.items()]: the
    [try] block, and [except Exception as e: logger.error(e); continue]. *)
Definition handle_module (options : Options) (lcov_out_dir : string)
    (item : string * AddressCount) : M unit :=
  try_except (report_module options lcov_out_dir item)
             (fun e => logger ERROR (str e)).

(** The second loop of [handle], over the aggregated coverage. *)
Definition handle_modules (options : Options) (lcov_out_dir : string)
    (coverage : list (string * AddressCount)) : M unit :=
  for_ coverage (handle_module options lcov_out_dir).

Definition extract_directory (st : heap * ModuleCoverage) (directory : string)
  : M (heap * ModuleCoverage) :=
  logger INFO ("Extracting coverage info from " ++ directory ++ "...") ;;
  _get_addr_coverage directory st.

Definition handle (options : Options) : M unit :=
  match symbol_manager E with
  | Some e => raise e
  | None => ret tt
  end ;;
  let lcov_out_dir :=
    match lcov_out_dir options with
    | Some d => if OsPath.is_empty d then project_path E "s2e-last" else d
    | None => project_path E "s2e-last"
    end in
  folders <- _get_output_folders options ;;
  st <- foldM extract_directory folders ([], []) ;;
  let '(h, coverage) := st in
  handle_modules options lcov_out_dir (contents h coverage).

End Program.

End Lcov.

(** ** Notions used to state the properties *)

Module Spec.

Import PyStr Lcov.

(** Concatenation of a list of strings. *)
Definition cat (l : list string) : string :=
  fold_right String.append EmptyString l.

(** A line of text, closed by a line feed. *)
Definition line (l : string) : string := l ++ nl.

(** The lines of the record of one source file in the LCOV format: [SF],
    one [DA] per line of the file in the order of its dictionary, [LH]
    with the number of lines of non-zero count, [LF] with the number of
    lines, [end_of_record]. *)
Definition da_text (item : Z * Z) : string :=
  "DA:" ++ fmt_d (fst item) ++ "," ++ fmt_d (snd item).

(** The number of lines of non-zero count. *)
Definition lines_hit (lines : list (Z * Z)) : nat :=
  List.length (filter (fun item => negb (snd item =? 0)) lines).

Definition record_text (entry : string * list (Z * Z)) : list string :=
  [("SF:" ++ fst entry)%string] ++
  map da_text (snd entry) ++
  [("LH:" ++ fmt_d (Z.of_nat (lines_hit (snd entry))))%string;
   ("LF:" ++ fmt_d (Z.of_nat (List.length (snd entry))))%string;
   "end_of_record"%string].

(** A file is skipped when missing files are ignored and it is missing. *)
Definition skipped (E : Env) (ignore_missing_files : bool) (src : string)
  : bool :=
  (ignore_missing_files && negb (path_exists E src))%bool.

(** The files that get a record: all of them, or with
    [ignore_missing_files] those that exist. *)
Definition emitted (E : Env) (ignore_missing_files : bool)
    (file_line_info : FileLineCoverage) : FileLineCoverage :=
  filter (fun entry => negb (skipped E ignore_missing_files (fst entry)))
         file_line_info.

(** The report: the [TN:] line, then the records of the emitted files in
    the order of the dictionary. *)
Definition lcov_report (E : Env) (ignore_missing_files : bool)
    (file_line_info : FileLineCoverage) : string :=
  cat (map line
         ("TN:"%string ::
          flat_map record_text (emitted E ignore_missing_files file_line_info))).

(** The lines of a text, as [text.split('\n')] gives them. *)
Definition text_lines (text : string) : list string :=
  split (ascii_of_nat 10) text.

(** The number of lines of a text that start with [TN:]. *)
Definition count_tn (text : string) : nat :=
  List.length (filter (String.prefix "TN:") (text_lines text)).

(** A path without line feed. *)
Definition one_line (s : string) : bool :=
  all_chars (fun c => negb (Ascii.eqb c (ascii_of_nat 10))) s.

(** The characters of a number printed by ['%d']. *)
Definition digit_or_minus (c : ascii) : bool :=
  (is_digit c || Ascii.eqb c "-")%bool.

(** An address is covered by a block [(start, _, size)] when it is
    [start + b] for an offset [b] in [[0, size)]. *)
Definition covered (blocks : list RawBlockEntry) (addr : Z) : Prop :=
  exists start unused size b,
    In (start, unused, size) blocks /\ 0 <= b < size /\ addr = start + b.

(** The same as a test. *)
Definition in_block (addr : Z) (e : RawBlockEntry) : bool :=
  let '(start, _, size) := e in
  ((start <=? addr) && (addr <? start + size))%bool.

Definition coveredb (blocks : list RawBlockEntry) (addr : Z) : bool :=
  existsb (in_block addr) blocks.

(** The count of an address once a dictionary that binds it to [incoming]
    is added to one that binds it to [old]. *)
Definition added (incoming old : option Z) : option Z :=
  match incoming, old with
  | Some c, Some c0 => Some (c0 + c)
  | Some c, None => Some c
  | None, _ => old
  end.

(** Two address-count dictionaries merged for one module into an empty
    module coverage, the first one first. *)
Definition merge_two (module_name : string) (d1 d2 : AddressCount)
  : list (string * AddressCount) :=
  let h := [d1; d2] in
  let '(h, coverage) := _merge_coverage h [] module_name 0%nat in
  let '(h, coverage) := _merge_coverage h coverage module_name 1%nat in
  contents h coverage.

(** The same with the second one first. *)
Definition merge_two_swapped (module_name : string) (d1 d2 : AddressCount)
  : list (string * AddressCount) :=
  let h := [d1; d2] in
  let '(h, coverage) := _merge_coverage h [] module_name 1%nat in
  let '(h, coverage) := _merge_coverage h coverage module_name 0%nat in
  contents h coverage.

(** Equality of module coverages as Python compares dictionaries. *)
Definition coverage_eqb (c1 c2 : list (string * AddressCount)) : bool :=
  (Nat.eqb (List.length c1) (List.length c2) &&
   forallb (fun '(m, d) =>
              match PyDict.get String.eqb m c2 with
              | Some d' => dict_eqb d d'
              | None => false
              end) c1)%bool.

(** What follows the writing of the report of a module. *)
Definition after_report (E : Env) (options : Options)
    (lcov_out_dir module_path : string) : list event :=
  let module := OsPath.basename module_path in
  let lcov_info_path := OsPath.join lcov_out_dir (module ++ ".info") in
  let lcov_html_dir := OsPath.join lcov_out_dir (module ++ "_lcov") in
  if html options then
    EvGenHtml lcov_info_path lcov_html_dir ::
    match genhtml E lcov_info_path lcov_html_dir with
    | None =>
        [EvLog SUCCESS
           ("An HTML report is available in " ++ lcov_html_dir ++ "/index.html")]
    | Some (ErrorReturnCode m) => [EvLog ERROR m]
    | Some e => [EvLog ERROR (str e)]
    end
  else [].

End Spec.

(** ** A project used in the examples *)

Module Demo.

Import Lcov.

(** A project in [/proj] whose last run is [s2e-out-10]; the runs 10, 9
    and 7 are on disk.  The module [/bin/bad] has no debug information. *)
Definition report : FileLineCoverage :=
  [("/a.c"%string, [(10, 2); (11, 0); (12, 1)])].

Definition env : Env := {|
  project_path := fun name => ("/proj/" ++ name)%string;
  realpath := fun _ => "/proj/s2e-out-10"%string;
  path_exists := fun p =>
    existsb (String.eqb p)
      ["/proj/s2e-out-10"; "/proj/s2e-out-9"; "/proj/s2e-out-7"; "/a.c"]%string;
  open_w := fun _ => None;
  tb_coverage_files := fun directory =>
    if String.eqb directory "/proj/s2e-out-10"
    then inr [("/bin/bad"%string, [(5, 0, 2)]);
              ("/bin/good"%string, [(100, 0, 4)])]
    else inr [("/bin/good"%string, [(102, 0, 3)])];
  symbol_manager := None;
  get_coverage := fun module_path _ _ =>
    if String.eqb module_path "/bin/bad"
    then inl (OtherException "no debug information")
    else inr report;
  genhtml := fun _ _ => None
|}.

Definition options : Options := {|
  html := false;
  lcov_out_dir := Some "/out"%string;
  aggregate_outputs := 3;
  s2e_out_dir := [];
  include_covered_files_only := false
|}.

(** The same project when [s2e-last] resolves to a folder that is not
    named after a run. *)
Definition env_renamed : Env := {|
  project_path := project_path env;
  realpath := fun _ => "/proj/last"%string;
  path_exists := path_exists env;
  open_w := open_w env;
  tb_coverage_files := tb_coverage_files env;
  symbol_manager := symbol_manager env;
  get_coverage := get_coverage env;
  genhtml := genhtml env
|}.

End Demo.

(** ** Notions used to state further properties *)

Module Cover.

Import PyStr Lcov Spec.

(** The state of an aggregation: the heap and the module coverage. *)
Definition State := (heap * ModuleCoverage)%type.

(** [module_name in coverage]. *)
Definition known (st : State) (m : string) : bool :=
  PyDict.mem String.eqb m (snd st).

(** [coverage[module_name].get(addr)], [None] also when the module is not
    in the coverage. *)
Definition count (st : State) (m : string) (addr : Z) : option Z :=
  match PyDict.get String.eqb m (snd st) with
  | Some l => PyDict.get Z.eqb addr (deref (fst st) l)
  | None => None
  end.

(** The states that the extraction builds: the coverage is a dictionary,
    two modules never share an object, every module is bound to an object of
    the heap, and every object is a dictionary. *)
Definition state_ok (st : State) : Prop :=
  PyDict.wf (snd st) /\
  NoDup (map snd (snd st)) /\
  (forall m l, In (m, l) (snd st) -> (l < List.length (fst st))%nat) /\
  (forall l, PyDict.wf (deref (fst st) l)).

(** What one block list contributes to an address: 1 when covered. *)
Definition block_count (blocks : list RawBlockEntry) (addr : Z) : option Z :=
  if coveredb blocks addr then Some 1 else None.

(** The count of an address of a module after the extraction of the
    blocks of that module from one folder, as the code computes it: added
    to the count so far when the module is known, and twice the
    contribution of the blocks when the module is new. *)
Definition extracted_count (st : State) (m : string)
    (blocks : list RawBlockEntry) (addr : Z) : option Z :=
  if known st m then added (block_count blocks addr) (count st m addr)
  else option_map (fun c => c + c) (block_count blocks addr).

(** The object that the merger adds to: the one of the module, or the one
    passed when the module is new. *)
Definition target (coverage : ModuleCoverage) (module_name : string)
    (module_coverage : loc) : loc :=
  match PyDict.get String.eqb module_name coverage with
  | Some cov => cov
  | None => module_coverage
  end.

(** All counts of a dictionary are non-negative. *)
Definition nonneg (d : AddressCount) : Prop :=
  forall addr c, PyDict.get Z.eqb addr d = Some c -> 0 <= c.

(** An event on the content of a file. *)
Definition is_file_event (ev : event) : bool :=
  match ev with
  | EvOpen _ | EvWrite _ _ | EvClose _ => true
  | _ => false
  end.

(** An event of the writer between the opening and the closing of the file
    at [path]: a log record or a write to that file. *)
Definition is_log_or_write (path : string) (ev : event) : bool :=
  match ev with
  | EvLog _ _ => true
  | EvWrite p _ => String.eqb p path
  | _ => false
  end.

Definition is_genhtml (ev : event) : bool :=
  match ev with
  | EvGenHtml _ _ => true
  | _ => false
  end.

(** An event of the extraction: a log record at INFO level or the loading
    of the traces of a folder. *)
Definition is_extraction_event (ev : event) : bool :=
  match ev with
  | EvLog INFO _ | EvTbFiles _ => true
  | _ => false
  end.

(** An event of the body of the loop over the modules, after the call of
    the symbol manager. *)
Definition is_module_event (ev : event) : bool :=
  match ev with
  | EvGetCoverage _ _ _ | EvTbFiles _ => false
  | _ => true
  end.

(** The events of the extraction of one folder by [handle]. *)
Definition extraction_events (directory : string) : list event :=
  [EvLog INFO ("Extracting coverage info from " ++ directory ++ "...");
   EvLog INFO "Generating translation block coverage information";
   EvTbFiles directory].

(** Every count of the aggregation is at least 1. *)
Definition positive (st : State) : Prop :=
  forall m addr c, count st m addr = Some c -> 1 <= c.

(** The report file of a module. *)
Definition info_path (lcov_out_dir module_path : string) : string :=
  OsPath.join lcov_out_dir (OsPath.basename module_path ++ ".info").

(** The directory of the HTML report of a module. *)
Definition html_dir (lcov_out_dir module_path : string) : string :=
  OsPath.join lcov_out_dir (OsPath.basename module_path ++ "_lcov").

(** The directory where [handle] writes the reports. *)
Definition out_dir (E : Env) (options : Options) : string :=
  match lcov_out_dir options with
  | Some d => if OsPath.is_empty d then project_path E "s2e-last" else d
  | None => project_path E "s2e-last"
  end.


(** Decides that a literal association list has no repeated key. *)
Ltac dict_wf :=
  unfold PyDict.wf; cbn; repeat constructor; cbn;
  intuition (try discriminate; try lia).

End Cover.

(** ** More projects for the examples *)

Module Demo2.

Import Lcov.

(** The project of [Demo] with a report directory that cannot be written. *)
Definition env_read_only : Env := {|
  project_path := project_path Demo.env;
  realpath := realpath Demo.env;
  path_exists := path_exists Demo.env;
  open_w := fun _ => Some (OSError "Permission denied");
  tb_coverage_files := tb_coverage_files Demo.env;
  symbol_manager := symbol_manager Demo.env;
  get_coverage := get_coverage Demo.env;
  genhtml := genhtml Demo.env
|}.

(** The project of [Demo] when the traces of the run 9 cannot be loaded. *)
Definition env_broken_traces : Env := {|
  project_path := project_path Demo.env;
  realpath := realpath Demo.env;
  path_exists := path_exists Demo.env;
  open_w := open_w Demo.env;
  tb_coverage_files := fun directory =>
    if String.eqb directory "/proj/s2e-out-9"
    then inl (CommandError "No translation block coverage files found")
    else tb_coverage_files Demo.env directory;
  symbol_manager := symbol_manager Demo.env;
  get_coverage := get_coverage Demo.env;
  genhtml := genhtml Demo.env
|}.


(** The project of [Demo] when [genhtml] fails. *)
Definition env_no_genhtml : Env := {|
  project_path := project_path Demo.env;
  realpath := realpath Demo.env;
  path_exists := path_exists Demo.env;
  open_w := open_w Demo.env;
  tb_coverage_files := tb_coverage_files Demo.env;
  symbol_manager := symbol_manager Demo.env;
  get_coverage := get_coverage Demo.env;
  genhtml := fun _ _ => Some (ErrorReturnCode "genhtml: exit code 2")
|}.

(** The options of [Demo] with the HTML report. *)
Definition options_html : Options := {|
  html := true;
  lcov_out_dir := lcov_out_dir Demo.options;
  aggregate_outputs := aggregate_outputs Demo.options;
  s2e_out_dir := s2e_out_dir Demo.options;
  include_covered_files_only := include_covered_files_only Demo.options
|}.

End Demo2.

(** * Properties *)

(** ** Dictionaries *)

Module PyDictFacts.
Import PyDict.

Section Facts.
Context {K V : Type}.
Variable eqb : K -> K -> bool.
Hypothesis eqb_eq : forall x y, eqb x y = true <-> x = y.

Lemma eqb_refl x : eqb x x = true.
Proof. now apply eqb_eq. Qed.

Lemma eqb_neq x y : x <> y -> eqb x y = false.
Proof.
  intros N. destruct (eqb x y) eqn:E; [|reflexivity].
  apply eqb_eq in E. contradiction.
Qed.

Lemma get_set_same k (v : V) d : get eqb k (set eqb k v d) = Some v.
Proof.
  induction d as [|[k' v'] r IH]; simpl.
  - now rewrite eqb_refl.
  - destruct (eqb k k') eqn:E; simpl; rewrite E; auto.
Qed.

Lemma get_set_other k k' (v : V) d :
  k <> k' -> get eqb k' (set eqb k v d) = get eqb k' d.
Proof.
  intros N. induction d as [|[k0 v0] r IH]; simpl.
  - rewrite eqb_neq; auto.
  - destruct (eqb k k0) eqn:E; simpl.
    + apply eqb_eq in E. subst k0.
      rewrite (@eqb_neq k' k); auto.
    + now rewrite IH.
Qed.

Lemma get_set k k' (v : V) d :
  get eqb k' (set eqb k v d) = if eqb k k' then Some v else get eqb k' d.
Proof.
  destruct (eqb k k') eqn:E.
  - apply eqb_eq in E. subst. apply get_set_same.
  - apply get_set_other. intros ->. now rewrite eqb_refl in E.
Qed.

Lemma get_None_keys k (d : list (K * V)) :
  get eqb k d = None <-> ~ In k (keys d).
Proof.
  induction d as [|[k' v'] r IH]; simpl.
  - tauto.
  - destruct (eqb k k') eqn:E.
    + apply eqb_eq in E. subst. split; [discriminate | intros H; exfalso; auto].
    + rewrite IH. split.
      * intros H [H1 | H1]; [subst; now rewrite eqb_refl in E | auto].
      * tauto.
Qed.

Lemma get_Some_In k (v : V) d : get eqb k d = Some v -> In (k, v) d.
Proof.
  induction d as [|[k' v'] r IH]; simpl; [discriminate|].
  destruct (eqb k k') eqn:E.
  - apply eqb_eq in E. intros [= ->]. subst. now left.
  - auto.
Qed.

Lemma In_get k (v : V) d : wf d -> In (k, v) d -> get eqb k d = Some v.
Proof.
  unfold wf. induction d as [|[k' v'] r IH]; simpl; [tauto|].
  intros W [H | H]; inversion W; subst.
  - injection H as -> ->. now rewrite eqb_refl.
  - destruct (eqb k k') eqn:E; [|auto].
    apply eqb_eq in E. subst. exfalso. apply H2.
    change k' with (fst (k', v)). now apply in_map.
Qed.

Lemma keys_set_present k (v : V) d :
  In k (keys d) -> keys (set eqb k v d) = keys d.
Proof.
  induction d as [|[k' v'] r IH]; simpl; [tauto|].
  destruct (eqb k k') eqn:E; simpl; [reflexivity|].
  intros [H | H]; [subst; now rewrite eqb_refl in E|].
  now rewrite IH.
Qed.

Lemma keys_set_absent k (v : V) d :
  ~ In k (keys d) -> keys (set eqb k v d) = keys d ++ [k].
Proof.
  induction d as [|[k' v'] r IH]; simpl; [reflexivity|].
  intros H. rewrite eqb_neq by (intros ->; tauto). simpl.
  rewrite IH; tauto.
Qed.

Lemma In_keys_set k k' (v : V) d :
  In k' (keys (set eqb k v d)) <-> k' = k \/ In k' (keys d).
Proof.
  induction d as [|[k0 v0] r IH]; simpl.
  - intuition.
  - destruct (eqb k k0) eqn:E; simpl.
    + apply eqb_eq in E. subst. intuition.
    + rewrite IH. intuition.
Qed.

Lemma wf_set k (v : V) d : wf d -> wf (set eqb k v d).
Proof.
  unfold wf. induction d as [|[k' v'] r IH]; simpl; intros W.
  - constructor; [simpl; tauto | constructor].
  - inversion W; subst. destruct (eqb k k') eqn:E; simpl.
    + now constructor.
    + constructor; [|auto].
      intros H. apply In_keys_set in H. destruct H as [-> | H]; [|auto].
      now rewrite eqb_refl in E.
Qed.
End Facts.

End PyDictFacts.

(** ** Strings and paths on examples *)

Module PyStrExamples.
Import PyStr.

Example fmt_d_10 : fmt_d 10 = "10". Proof. reflexivity. Qed.
Example fmt_d_0 : fmt_d 0 = "0". Proof. reflexivity. Qed.
Example fmt_d_neg : fmt_d (-1) = "-1". Proof. reflexivity. Qed.
Example split_run : split "-" "s2e-out-10" = ["s2e"; "out"; "10"].
Proof. reflexivity. Qed.
Example split_last : split "-" "s2e-last" = ["s2e"; "last"].
Proof. reflexivity. Qed.
Example split_empty : split "-" "" = [""]. Proof. reflexivity. Qed.
Example split_trailing : split "-" "a--" = ["a"; ""; ""]. Proof. reflexivity. Qed.
Example int_10 : int "10" = Some 10. Proof. reflexivity. Qed.
Example int_007 : int " +007 " = Some 7. Proof. reflexivity. Qed.
Example int_1_000 : int "1_000" = Some 1000. Proof. reflexivity. Qed.
Example int_last : int "last" = None. Proof. reflexivity. Qed.
Example int_empty : int "" = None. Proof. reflexivity. Qed.
Example int_bad_underscore : int "1__0" = None. Proof. reflexivity. Qed.

End PyStrExamples.

Module OsPathExamples.
Import OsPath.

Example basename_run : basename "/home/u/proj/s2e-out-10" = "s2e-out-10".
Proof. reflexivity. Qed.
Example dirname_run : dirname "/home/u/proj/s2e-out-10" = "/home/u/proj".
Proof. reflexivity. Qed.
Example dirname_root : dirname "/s2e-out-10" = "/". Proof. reflexivity. Qed.
Example dirname_rel : dirname "s2e-out-10" = "". Proof. reflexivity. Qed.
Example basename_lib : basename "/usr/lib/libc.so" = "libc.so".
Proof. reflexivity. Qed.
Example basename_slash : basename "/usr/lib/" = "". Proof. reflexivity. Qed.
Example join_plain : join "/home/u/proj" "s2e-out-9" = "/home/u/proj/s2e-out-9".
Proof. reflexivity. Qed.
Example join_root : join "/" "s2e-out-9" = "/s2e-out-9". Proof. reflexivity. Qed.
Example join_empty : join "" "s2e-out-9" = "s2e-out-9". Proof. reflexivity. Qed.
Example join_abs : join "/a" "/b" = "/b". Proof. reflexivity. Qed.

End OsPathExamples.

(** ** Strings *)

Module StrFacts.
Import PyStr Spec.

Lemma append_assoc (a b c : string) : ((a ++ b) ++ c = a ++ (b ++ c))%string.
Proof. induction a as [|x a IH]; simpl; [reflexivity | now rewrite IH]. Qed.

Lemma append_empty_r (a : string) : (a ++ "")%string = a.
Proof. induction a as [|x a IH]; simpl; [reflexivity | now rewrite IH]. Qed.

Lemma cat_app (l1 l2 : list string) : cat (l1 ++ l2) = (cat l1 ++ cat l2)%string.
Proof.
  induction l1 as [|x l1 IH]; simpl; [reflexivity|].
  now rewrite IH, append_assoc.
Qed.

Lemma cat_flat_map {A} (f : A -> list string) (l : list A) :
  cat (flat_map f l) = cat (map (fun x => cat (f x)) l).
Proof.
  induction l as [|x l IH]; simpl; [reflexivity|].
  now rewrite cat_app, IH.
Qed.

End StrFacts.

(** ** The monad *)

Module MonadFacts.
Import Lcov.

Lemma bind_tell {B} (evs : list event) (k : unit -> M B) :
  bind (tell evs) k = (fst (k tt), evs ++ snd (k tt)).
Proof. unfold bind, tell. now destruct (k tt). Qed.

Lemma bind_ok {A B} (m : M A) (k : A -> M B) (a : A) (t : list event) :
  m = (inr a, t) -> bind m k = (fst (k a), t ++ snd (k a)).
Proof. intros ->. unfold bind. now destruct (k a). Qed.

Lemma bind_raise {A B} (m : M A) (k : A -> M B) (e : exn) (t : list event) :
  m = (inl e, t) -> bind m k = (inl e, t).
Proof. now intros ->. Qed.

(** A loop whose turns all return runs them all, in order. *)
Lemma for_ok {A} (xs : list A) (body : A -> M unit) :
  (forall x, In x xs -> fst (body x) = inr tt) ->
  for_ xs body = (inr tt, flat_map (fun x => snd (body x)) xs).
Proof.
  induction xs as [|x r IH]; intros H; simpl; [reflexivity|].
  assert (Hx : body x = (inr tt, snd (body x))).
  { specialize (H x (or_introl eq_refl)). destruct (body x); simpl in *. now subst. }
  rewrite (bind_ok _ Hx), IH by (intros; apply H; now right).
  reflexivity.
Qed.

End MonadFacts.

(** ** Lines and digits *)

Module LineFacts.
Import PyStr Lcov Spec StrFacts.

Lemma all_chars_app (p : ascii -> bool) (a b : string) :
  all_chars p (a ++ b) = (all_chars p a && all_chars p b)%bool.
Proof.
  induction a as [|x a IH]; simpl; [reflexivity|].
  now rewrite IH, andb_assoc.
Qed.

Lemma all_chars_impl (p q : ascii -> bool) (s : string) :
  (forall c, p c = true -> q c = true) ->
  all_chars p s = true -> all_chars q s = true.
Proof.
  intros H. induction s as [|x s IH]; simpl; [reflexivity|].
  rewrite !andb_true_iff. intros [Hx Hs]. auto.
Qed.

Lemma digits_uint (d : uint) :
  all_chars is_digit (NilEmpty.string_of_uint d) = true.
Proof. induction d; simpl; auto. Qed.

Lemma digits_nonneg (z : Z) : 0 <= z -> all_chars is_digit (fmt_d z) = true.
Proof.
  intros Hz. unfold fmt_d. destruct z as [|q|q]; [reflexivity| |lia].
  unfold Z.to_int, NilZero.string_of_int, NilZero.string_of_uint.
  destruct (Pos.to_uint q) eqn:Eq; try (rewrite <- Eq; apply digits_uint).
  reflexivity.
Qed.

Lemma fmt_d_chars (z : Z) : all_chars digit_or_minus (fmt_d z) = true.
Proof.
  assert (D : forall d, all_chars digit_or_minus (NilZero.string_of_uint d) = true).
  { intros d. unfold NilZero.string_of_uint.
    destruct d; try reflexivity;
      (eapply all_chars_impl; [|apply digits_uint]);
      intros c Hc; unfold digit_or_minus; now rewrite Hc. }
  unfold fmt_d. destruct (Z.to_int z); simpl; auto.
Qed.

Lemma digit_or_minus_not_nl (c : ascii) :
  digit_or_minus c = true -> negb (Ascii.eqb c (ascii_of_nat 10)) = true.
Proof.
  destruct (Ascii.eqb c (ascii_of_nat 10)) eqn:Ec; [|reflexivity].
  apply Ascii.eqb_eq in Ec. subst. discriminate.
Qed.

Lemma fmt_d_one_line (z : Z) : one_line (fmt_d z) = true.
Proof.
  unfold one_line. eapply all_chars_impl; [|apply fmt_d_chars].
  apply digit_or_minus_not_nl.
Qed.

Lemma split_line (sep : ascii) (l rest : string) :
  all_chars (fun c => negb (Ascii.eqb c sep)) l = true ->
  split sep (l ++ String sep rest) = l :: split sep rest.
Proof.
  induction l as [|x l IH]; simpl.
  - intros _. now rewrite Ascii.eqb_refl.
  - rewrite andb_true_iff, negb_true_iff. intros [Hx Hl].
    now rewrite Hx, IH.
Qed.

Lemma split_no_sep (sep : ascii) (l : string) :
  all_chars (fun c => negb (Ascii.eqb c sep)) l = true ->
  split sep l = [l].
Proof.
  induction l as [|x l IH]; simpl; [reflexivity|].
  rewrite andb_true_iff, negb_true_iff. intros [Hx Hl].
  now rewrite Hx, IH.
Qed.

(** The lines of a text made of one-line strings, each closed by a line
    feed. *)
Lemma text_lines_cat (ls : list string) :
  forallb one_line ls = true ->
  text_lines (cat (map (fun l => (l ++ nl)%string) ls)) = ls ++ [EmptyString].
Proof.
  unfold text_lines. induction ls as [|l r IH]; simpl; [reflexivity|].
  rewrite andb_true_iff. intros [Hl Hr].
  rewrite append_assoc. simpl. rewrite split_line by exact Hl.
  now rewrite IH.
Qed.

End LineFacts.

(** ** Ranges *)

Module RangeFacts.
Import Lcov.

Lemma In_range (lo hi x : Z) : In x (range lo hi) <-> lo <= x < hi.
Proof.
  unfold range. rewrite in_map_iff. split.
  - intros [i [<- Hi]]. apply in_seq in Hi. lia.
  - intros H. exists (Z.to_nat (x - lo)). split; [lia|].
    apply in_seq. lia.
Qed.

End RangeFacts.

(** ** Reading back a printed number *)

Module IntFacts.
Import PyStr Spec StrFacts LineFacts.

Lemma digit_cases (c : ascii) :
  is_digit c = true ->
  In c ["0"; "1"; "2"; "3"; "4"; "5"; "6"; "7"; "8"; "9"]%char.
Proof.
  destruct c as [[] [] [] [] [] [] [] []]; intros H;
    try discriminate H; cbn; tauto.
Qed.

Lemma digit_plain (c : ascii) :
  is_digit c = true ->
  is_space c = false /\ Ascii.eqb c "-" = false /\
  Ascii.eqb c "+" = false /\ Ascii.eqb c "_" = false.
Proof.
  intros H. apply digit_cases in H. cbn in H.
  repeat (destruct H as [<- | H]; [repeat split; reflexivity|]).
  destruct H.
Qed.

Lemma rstrip_digits (s : string) :
  all_chars is_digit s = true -> rstrip is_space s = s.
Proof.
  induction s as [|c r IH]; cbn [all_chars rstrip]; [reflexivity|].
  rewrite andb_true_iff. intros [Hc Hr]. rewrite (IH Hr).
  destruct (digit_plain c Hc) as [Hs _]. rewrite Hs. now destruct r.
Qed.

Lemma lstrip_digits (s : string) :
  all_chars is_digit s = true -> lstrip is_space s = s.
Proof.
  destruct s as [|c r]; cbn [all_chars lstrip]; [reflexivity|].
  rewrite andb_true_iff. intros [Hc _].
  destruct (digit_plain c Hc) as [Hs _]. now rewrite Hs.
Qed.

Lemma digitpart_digits (s : string) (after_digit : bool) :
  all_chars is_digit s = true -> s <> EmptyString ->
  digitpart after_digit s = true.
Proof.
  revert after_digit. induction s as [|c r IH]; intros a; [congruence|].
  cbn [all_chars digitpart]. rewrite andb_true_iff. intros [Hc Hr] _.
  rewrite Hc. destruct r as [|c' r']; [reflexivity|].
  apply IH; [exact Hr | discriminate].
Qed.

Lemma drop_underscores_digits (s : string) :
  all_chars is_digit s = true -> drop_underscores s = s.
Proof.
  induction s as [|c r IH]; cbn [all_chars drop_underscores]; [reflexivity|].
  rewrite andb_true_iff. intros [Hc Hr].
  destruct (digit_plain c Hc) as [_ [_ [_ Hu]]]. now rewrite Hu, IH.
Qed.

(** [int] reads a string of digits as the number that it writes. *)
Lemma int_digits (s : string) (d : uint) :
  all_chars is_digit s = true -> s <> EmptyString ->
  NilZero.uint_of_string s = Some d ->
  int s = Some (Z.of_uint d).
Proof.
  intros Hd Hne Hu. unfold int, strip.
  rewrite lstrip_digits, rstrip_digits by exact Hd.
  destruct s as [|c r]; [congruence|].
  pose proof Hd as Hd'. cbn [all_chars] in Hd'.
  apply andb_true_iff in Hd'. destruct Hd' as [Hc _].
  destruct (digit_plain c Hc) as [_ [Hm [Hp _]]]. rewrite Hm, Hp.
  rewrite digitpart_digits by (exact Hd || discriminate).
  rewrite drop_underscores_digits by exact Hd. now rewrite Hu.
Qed.

Lemma fmt_d_nonneg (n : Z) :
  0 <= n ->
  exists d, fmt_d n = NilZero.string_of_uint d /\ d <> Nil /\ Z.of_uint d = n.
Proof.
  intros Hn. destruct n as [|q|q]; [| |lia].
  - exists (D0 Nil). repeat split. discriminate.
  - exists (Pos.to_uint q). repeat split.
    + apply DecimalPos.Unsigned.to_uint_nonnil.
    + unfold Z.of_uint. now rewrite DecimalPos.Unsigned.of_to.
Qed.

Lemma fmt_d_nonempty (n : Z) : fmt_d n <> EmptyString.
Proof.
  assert (U : forall d, NilZero.string_of_uint d <> EmptyString).
  { intros d. destruct d; discriminate. }
  unfold fmt_d. destruct (Z.to_int n); cbn; [apply U | discriminate].
Qed.

(** [int('%d' % n)] is [n]. *)
Lemma int_fmt_d (n : Z) : 0 <= n -> int (fmt_d n) = Some n.
Proof.
  intros Hn. destruct (fmt_d_nonneg Hn) as [d [Hs [Hd Hz]]].
  rewrite <- Hz at 2. apply int_digits.
  - now apply digits_nonneg.
  - apply fmt_d_nonempty.
  - rewrite Hs. now apply NilZero.usu.
Qed.

(** The name of a run splits into its three parts. *)
Lemma split_run_name (n : Z) :
  0 <= n -> split "-" ("s2e-out-" ++ fmt_d n) = ["s2e"; "out"; fmt_d n]%string.
Proof.
  intros Hn.
  assert (H : split "-" (fmt_d n) = [fmt_d n]).
  { apply split_no_sep. eapply all_chars_impl; [|apply (digits_nonneg Hn)].
    intros c Hc. destruct (digit_plain c Hc) as [_ [Hm _]]. now rewrite Hm. }
  cbn. now rewrite H.
Qed.

End IntFacts.

(** ** The heap *)

Module HeapFacts.
Import Lcov.

Lemma length_store (h : heap) (l : loc) (d : AddressCount) :
  List.length (store h l d) = List.length h.
Proof.
  revert l. induction h as [|x r IH]; intros [|l]; cbn; auto.
Qed.

Lemma deref_store_same (h : heap) (l : loc) (d : AddressCount) :
  (l < List.length h)%nat -> deref (store h l d) l = d.
Proof.
  unfold deref. revert l. induction h as [|x r IH]; intros [|l]; cbn; intros H;
    try lia; [reflexivity|].
  apply IH. lia.
Qed.

Lemma deref_store_other (h : heap) (l l' : loc) (d : AddressCount) :
  l' <> l -> deref (store h l d) l' = deref h l'.
Proof.
  unfold deref. revert l l'.
  induction h as [|x r IH]; intros [|l] [|l'] H; cbn; try reflexivity;
    try congruence.
  apply IH. congruence.
Qed.

End HeapFacts.

(** ** The merger *)

Module MergerProps.
Import Lcov Spec HeapFacts.

Lemma get_set_count (k k' v : Z) (d : AddressCount) :
  PyDict.get Z.eqb k' (PyDict.set Z.eqb k v d) =
  if Z.eqb k k' then Some v else PyDict.get Z.eqb k' d.
Proof. apply (PyDictFacts.get_set Z.eqb Z.eqb_eq). Qed.

Lemma get_In_keys (k : Z) (d : AddressCount) :
  In k (PyDict.keys d) -> exists c, PyDict.get Z.eqb k d = Some c.
Proof.
  intros H. destruct (PyDict.get Z.eqb k d) eqn:Eg; [now eexists|].
  apply (PyDictFacts.get_None_keys Z.eqb Z.eqb_eq) in Eg. contradiction.
Qed.

(** Merging an object into itself doubles the counts of the keys that the
    loop visits. *)
Lemma merge_self (l : loc) (ks : list Z) (h : heap) :
  (l < List.length h)%nat -> NoDup ks ->
  (forall k, In k ks -> In k (PyDict.keys (deref h l))) ->
  let h' := fold_left (merge_addr l l) ks h in
  List.length h' = List.length h /\
  (forall l', l' <> l -> deref h' l' = deref h l') /\
  PyDict.keys (deref h' l) = PyDict.keys (deref h l) /\
  forall a, PyDict.get Z.eqb a (deref h' l) =
            if in_dec Z.eq_dec a ks
            then option_map (fun c => c + c) (PyDict.get Z.eqb a (deref h l))
            else PyDict.get Z.eqb a (deref h l).
Proof.
  revert h. induction ks as [|k r IH]; intros h Hl Hnd Hin; cbn zeta.
  - cbn. repeat split; auto.
  - cbn [fold_left]. inversion Hnd as [|k' r' Hk Hr]; subst.
    destruct (get_In_keys k (deref h l) (Hin k (or_introl eq_refl))) as [c Hc].
    assert (Hm : merge_addr l l h k
                 = store h l (PyDict.set Z.eqb k (c + c) (deref h l)))
      by (unfold merge_addr; now rewrite Hc).
    rewrite Hm.
    set (h1 := store h l (PyDict.set Z.eqb k (c + c) (deref h l))).
    assert (Hd1 : deref h1 l = PyDict.set Z.eqb k (c + c) (deref h l))
      by (apply deref_store_same; exact Hl).
    assert (Hk1 : PyDict.keys (deref h1 l) = PyDict.keys (deref h l)).
    { rewrite Hd1. apply (PyDictFacts.keys_set_present Z.eqb Z.eqb_eq).
      apply Hin. now left. }
    destruct (IH h1) as [L [O [K G]]].
    + unfold h1. now rewrite length_store.
    + exact Hr.
    + intros k0 Hk0. rewrite Hk1. apply Hin. now right.
    + cbn zeta in *. split; [|split; [|split]].
      * rewrite L. unfold h1. apply length_store.
      * intros l' Hl'. rewrite (O l' Hl'). unfold h1.
        now apply deref_store_other.
      * now rewrite K.
      * intros a. rewrite G, Hd1, get_set_count.
        destruct (in_dec Z.eq_dec a r) as [Har | Har];
          destruct (in_dec Z.eq_dec a (k :: r)) as [Hak | Hak];
          destruct (Z.eqb_spec k a) as [-> | Hne];
          try reflexivity; try contradiction.
        -- exfalso. apply Hak. now right.
        -- now rewrite Hc.
        -- destruct Hak as [Hak | Hak]; congruence.
        -- exfalso. apply Hak. now left.
Qed.

(** Merging an object into another one adds the counts of the keys that
    the loop visits and leaves the merged object as it was. *)
Lemma merge_other (cov l : loc) (ks : list Z) (h : heap) :
  cov <> l -> (cov < List.length h)%nat -> NoDup ks ->
  let h' := fold_left (merge_addr cov l) ks h in
  List.length h' = List.length h /\
  (forall l', l' <> cov -> deref h' l' = deref h l') /\
  forall a, PyDict.get Z.eqb a (deref h' cov) =
            if in_dec Z.eq_dec a ks
            then added (PyDict.get Z.eqb a (deref h l))
                       (PyDict.get Z.eqb a (deref h cov))
            else PyDict.get Z.eqb a (deref h cov).
Proof.
  intros Hne. revert h. induction ks as [|k r IH]; intros h Hl Hnd; cbn zeta.
  - cbn. repeat split; auto.
  - cbn [fold_left]. inversion Hnd as [|k' r' Hk Hr]; subst.
    set (h1 := merge_addr cov l h k).
    assert (H1 : List.length h1 = List.length h /\
                 (forall l', l' <> cov -> deref h1 l' = deref h l') /\
                 forall a, PyDict.get Z.eqb a (deref h1 cov) =
                           if Z.eqb k a
                           then added (PyDict.get Z.eqb a (deref h l))
                                      (PyDict.get Z.eqb a (deref h cov))
                           else PyDict.get Z.eqb a (deref h cov)).
    { unfold h1, merge_addr.
      destruct (PyDict.get Z.eqb k (deref h l)) as [c|] eqn:Ec.
      - destruct (PyDict.get Z.eqb k (deref h cov)) as [c0|] eqn:Ec0.
        + split; [apply length_store|]. split.
          * intros l' Hl'. now apply deref_store_other.
          * intros a. rewrite deref_store_same by exact Hl.
            rewrite get_set_count.
            destruct (Z.eqb_spec k a) as [<- | Hka]; [|reflexivity].
            now rewrite Ec, Ec0.
        + split; [apply length_store|]. split.
          * intros l' Hl'. now apply deref_store_other.
          * intros a. rewrite deref_store_same by exact Hl.
            rewrite get_set_count.
            destruct (Z.eqb_spec k a) as [<- | Hka]; [|reflexivity].
            now rewrite Ec, Ec0.
      - split; [reflexivity|]. split; [reflexivity|].
        intros a. destruct (Z.eqb_spec k a) as [<- | Hka]; [|reflexivity].
        now rewrite Ec. }
    destruct H1 as [L1 [O1 G1]].
    destruct (IH h1) as [L [O G]]; [lia | exact Hr|].
    cbn zeta in *. split; [lia|]. split.
    + intros l' Hl'. now rewrite (O l' Hl'), (O1 l' Hl').
    + intros a. rewrite G, G1, (O1 l (not_eq_sym Hne)).
      destruct (in_dec Z.eq_dec a r) as [Har | Har];
        destruct (in_dec Z.eq_dec a (k :: r)) as [Hak | Hak];
        destruct (Z.eqb_spec k a) as [-> | Hka];
        try reflexivity; try contradiction.
      * exfalso. apply Hak. now right.
      * destruct Hak as [Hak | Hak]; congruence.
      * exfalso. apply Hak. now left.
Qed.

Lemma module_get_set (m : string) (l : loc) (coverage : ModuleCoverage) :
  PyDict.get String.eqb m (PyDict.set String.eqb m l coverage) = Some l.
Proof. apply (PyDictFacts.get_set_same String.eqb String.eqb_eq). Qed.

(** The merger on a module that the coverage does not hold yet: the
    module is bound to the object that was passed, and the loop then adds
    each count of that object to itself. *)
Lemma merge_coverage_absent (h : heap) (coverage : ModuleCoverage)
    (module_name : string) (module_coverage : loc) :
  PyDict.get String.eqb module_name coverage = None ->
  (module_coverage < List.length h)%nat ->
  PyDict.wf (deref h module_coverage) ->
  let h' := fst (_merge_coverage h coverage module_name module_coverage) in
  let coverage' := snd (_merge_coverage h coverage module_name module_coverage) in
  coverage' = PyDict.set String.eqb module_name module_coverage coverage /\
  PyDict.get String.eqb module_name coverage' = Some module_coverage /\
  (forall l', l' <> module_coverage -> deref h' l' = deref h l') /\
  forall addr,
    PyDict.get Z.eqb addr (deref h' module_coverage) =
    option_map (fun c => c + c) (PyDict.get Z.eqb addr (deref h module_coverage)).
Proof.
  intros Ha Hl Hw. unfold _merge_coverage, PyDict.mem. rewrite Ha. cbn [negb].
  rewrite module_get_set. cbn [fst snd].
  destruct (@merge_self module_coverage
              (PyDict.keys (deref h module_coverage)) h
              Hl Hw (fun k H => H)) as [_ [O [_ G]]].
  cbn zeta in *. split; [reflexivity|]. split; [apply module_get_set|].
  split; [exact O|].
  intros addr. rewrite G.
  destruct (in_dec Z.eq_dec addr (PyDict.keys (deref h module_coverage)))
    as [Hin | Hin]; [reflexivity|].
  apply (PyDictFacts.get_None_keys Z.eqb Z.eqb_eq) in Hin. now rewrite Hin.
Qed.

(** The merger on a module that the coverage holds, bound to another
    object than the one passed: the counts are added, new addresses are
    inserted, and the object passed is left as it was. *)
Lemma merge_coverage_present (h : heap) (coverage : ModuleCoverage)
    (module_name : string) (cov module_coverage : loc) :
  PyDict.get String.eqb module_name coverage = Some cov ->
  cov <> module_coverage ->
  (cov < List.length h)%nat ->
  PyDict.wf (deref h module_coverage) ->
  let h' := fst (_merge_coverage h coverage module_name module_coverage) in
  snd (_merge_coverage h coverage module_name module_coverage) = coverage /\
  (forall l', l' <> cov -> deref h' l' = deref h l') /\
  forall addr,
    PyDict.get Z.eqb addr (deref h' cov) =
    added (PyDict.get Z.eqb addr (deref h module_coverage))
          (PyDict.get Z.eqb addr (deref h cov)).
Proof.
  intros Hp Hne Hl Hw. unfold _merge_coverage, PyDict.mem. rewrite Hp.
  cbn [negb]. rewrite Hp. cbn [fst snd].
  destruct (@merge_other cov module_coverage
              (PyDict.keys (deref h module_coverage)) h Hne Hl Hw)
    as [_ [O G]].
  cbn zeta in *. split; [reflexivity|]. split; [exact O|].
  intros addr. rewrite G.
  destruct (in_dec Z.eq_dec addr (PyDict.keys (deref h module_coverage)))
    as [Hin | Hin]; [reflexivity|].
  apply (PyDictFacts.get_None_keys Z.eqb Z.eqb_eq) in Hin. now rewrite Hin.
Qed.

(** One run that covers the two bytes of one block of a module leaves the
    count 2 for each byte in the aggregated coverage. *)
Example extract_once_counts_twice :
  let '(h, coverage) :=
    fold_left extract_module [("/bin/app"%string, [(5, 0, 2)])] ([], []) in
  contents h coverage = [("/bin/app"%string, [(5, 2); (6, 2)])].
Proof. reflexivity. Qed.

(** C1, on the code. Merging [{100: 1}] for a module that the coverage does
    not hold binds the module to the object passed and leaves [{100: 2}] in
    it: the entry does not equal the incoming dictionary as it was at the
    call, where the specification has every address keep its count. *)
Theorem merge_absent_module_doubles :
  let h := [[(100, 1)]] in
  let h' := fst (_merge_coverage h [] "mod" 0%nat) in
  let coverage' := snd (_merge_coverage h [] "mod" 0%nat) in
  PyDict.get String.eqb "mod" coverage' = Some 0%nat /\
  deref h 0%nat = [(100, 1)] /\
  deref h' 0%nat = [(100, 2)] /\
  contents h' coverage' = [("mod"%string, [(100, 2)])].
Proof. repeat split. Qed.

(** C2, on the code. Merging [{1: 1, 2: 2}] then [{2: 3, 3: 1}] for one
    module into an empty coverage gives [{1: 2, 2: 7, 3: 1}]; in the other
    order it gives [{2: 8, 3: 2, 1: 1}]: the dictionary merged first is
    counted twice, so the two results differ, where the specification has
    them equal.  The same holds for dictionaries as the extractor
    builds them, with all counts at 1: [{1: 1}] then [{2: 1}] gives
    [{1: 2, 2: 1}], the other order [{2: 2, 1: 1}]. *)
Theorem merge_order_changes_counts :
  merge_two "m" [(1, 1); (2, 2)] [(2, 3); (3, 1)]
    = [("m"%string, [(1, 2); (2, 7); (3, 1)])] /\
  merge_two_swapped "m" [(1, 1); (2, 2)] [(2, 3); (3, 1)]
    = [("m"%string, [(2, 8); (3, 2); (1, 1)])] /\
  coverage_eqb (merge_two "m" [(1, 1); (2, 2)] [(2, 3); (3, 1)])
               (merge_two_swapped "m" [(1, 1); (2, 2)] [(2, 3); (3, 1)])
    = false /\
  merge_two "m" [(1, 1)] [(2, 1)] = [("m"%string, [(1, 2); (2, 1)])] /\
  merge_two_swapped "m" [(1, 1)] [(2, 1)] = [("m"%string, [(2, 2); (1, 1)])] /\
  coverage_eqb (merge_two "m" [(1, 1)] [(2, 1)])
               (merge_two_swapped "m" [(1, 1)] [(2, 1)])
    = false.
Proof. repeat split. Qed.

End MergerProps.

(** ** The extractor *)

Module ExtractorProps.
Import Lcov Spec.

(** Setting a list of addresses to 1 in turn. *)
Lemma set_all_get (start : Z) (bytes : list Z) (d : AddressCount) (addr : Z) :
  PyDict.get Z.eqb addr
    (fold_left (fun d byte => PyDict.set Z.eqb (start + byte) 1 d) bytes d) =
  if in_dec Z.eq_dec (addr - start) bytes then Some 1
  else PyDict.get Z.eqb addr d.
Proof.
  revert d. induction bytes as [|b r IH]; intros d; [reflexivity|].
  cbn [fold_left]. rewrite IH.
  rewrite (PyDictFacts.get_set Z.eqb Z.eqb_eq).
  destruct (in_dec Z.eq_dec (addr - start) r) as [Hr | Hr];
    destruct (in_dec Z.eq_dec (addr - start) (b :: r)) as [Hb | Hb];
    try reflexivity.
  - exfalso. apply Hb. now right.
  - destruct Hb as [Hb | Hb]; [|contradiction].
    replace (start + b) with addr by lia. now rewrite Z.eqb_refl.
  - destruct (Z.eqb_spec (start + b) addr) as [Heq | Hne]; [|reflexivity].
    exfalso. apply Hb. left. lia.
Qed.

Lemma set_all_wf (start : Z) (bytes : list Z) (d : AddressCount) :
  PyDict.wf d ->
  PyDict.wf (fold_left (fun d byte => PyDict.set Z.eqb (start + byte) 1 d) bytes d).
Proof.
  revert d. induction bytes as [|b r IH]; intros d W; [exact W|].
  cbn [fold_left]. apply IH. now apply (PyDictFacts.wf_set Z.eqb Z.eqb_eq).
Qed.

Lemma expand_block_get (d : AddressCount) (start unused size addr : Z) :
  PyDict.get Z.eqb addr (expand_block d (start, unused, size)) =
  if (start <=? addr) && (addr <? start + size) then Some 1
  else PyDict.get Z.eqb addr d.
Proof.
  unfold expand_block. rewrite set_all_get.
  destruct (in_dec Z.eq_dec (addr - start) (range 0 size)) as [H | H];
    rewrite RangeFacts.In_range in H;
    destruct (Z.leb_spec start addr); destruct (Z.ltb_spec addr (start + size));
    cbn [andb]; try reflexivity; lia.
Qed.

Lemma expand_block_wf (d : AddressCount) (e : RawBlockEntry) :
  PyDict.wf d -> PyDict.wf (expand_block d e).
Proof. destruct e as [[start unused] size]. apply set_all_wf. Qed.

Lemma expand_blocks_wf (blocks : list RawBlockEntry) (d : AddressCount) :
  PyDict.wf d -> PyDict.wf (fold_left expand_block blocks d).
Proof.
  revert d. induction blocks as [|e r IH]; intros d W; [exact W|].
  cbn [fold_left]. apply IH. now apply expand_block_wf.
Qed.

Lemma coveredb_covered (blocks : list RawBlockEntry) (addr : Z) :
  coveredb blocks addr = true <-> covered blocks addr.
Proof.
  unfold coveredb, covered. rewrite existsb_exists. split.
  - intros [[[start unused] size] [Hin Hb]]. unfold in_block in Hb.
    apply andb_true_iff in Hb. destruct Hb as [H1 H2].
    apply Z.leb_le in H1. apply Z.ltb_lt in H2.
    exists start, unused, size, (addr - start). split; [exact Hin | lia].
  - intros [start [unused [size [b [Hin [Hb Ha]]]]]].
    exists (start, unused, size). split; [exact Hin|].
    unfold in_block. apply andb_true_iff. split.
    + apply Z.leb_le. lia.
    + apply Z.ltb_lt. lia.
Qed.

Lemma expand_blocks_get (blocks : list RawBlockEntry) (d : AddressCount)
    (addr : Z) :
  PyDict.get Z.eqb addr (fold_left expand_block blocks d) =
  if coveredb blocks addr then Some 1 else PyDict.get Z.eqb addr d.
Proof.
  revert d. induction blocks as [|[[start unused] size] r IH]; intros d;
    [reflexivity|].
  cbn [fold_left coveredb existsb]. fold (coveredb r addr). rewrite IH.
  rewrite expand_block_get. unfold in_block.
  destruct (coveredb r addr); [now rewrite orb_true_r|].
  now rewrite orb_false_r.
Qed.

(** C3. The local [addr_counts] that the extractor builds for a module is a
    dictionary (no address twice) that binds an address to 1 when the
    address is [start + b] for an entry [(start, _, size)] of the module and
    an offset [b] in [[0, size)], and does not bind any other address;
    overlapping blocks leave the count at 1.  The entry
    [(start=100, size=4)] alone gives [{100: 1, 101: 1, 102: 1, 103: 1}].
    This dictionary, as a new object, is what the extractor passes to the
    merger. *)
Theorem addr_counts_of_blocks (blocks : list RawBlockEntry) (addr : Z) :
  PyDict.wf (addr_counts_of blocks) /\
  (PyDict.get Z.eqb addr (addr_counts_of blocks) = Some 1 <->
   exists start unused size b,
     In (start, unused, size) blocks /\ 0 <= b < size /\ addr = start + b) /\
  (PyDict.get Z.eqb addr (addr_counts_of blocks) = None <->
   ~ exists start unused size b,
       In (start, unused, size) blocks /\ 0 <= b < size /\ addr = start + b) /\
  (forall unused,
      addr_counts_of [(100, unused, 4)] =
      [(100, 1); (101, 1); (102, 1); (103, 1)]) /\
  (forall unused unused',
      addr_counts_of [(100, unused, 4); (102, unused', 3)] =
      [(100, 1); (101, 1); (102, 1); (103, 1); (104, 1)]) /\
  (forall h aggregated_coverage module_path,
      extract_module (h, aggregated_coverage) (module_path, blocks) =
      _merge_coverage (h ++ [addr_counts_of blocks]) aggregated_coverage
                      module_path (List.length h)).
Proof.
  split; [apply expand_blocks_wf; constructor|].
  unfold addr_counts_of. rewrite expand_blocks_get. cbn [PyDict.get].
  fold (covered blocks addr). rewrite <- coveredb_covered.
  destruct (coveredb blocks addr); repeat split; try reflexivity;
    try discriminate; try congruence.
Qed.

End ExtractorProps.

(** ** The LCOV writer *)

Module WriterFacts.
Import PyStr Lcov Spec StrFacts MonadFacts LineFacts.

Section Writer.
Variable E : Env.

Lemma da_line_eq (l c : Z) :
  ("DA:" ++ fmt_d l ++ "," ++ fmt_d c ++ nl)%string = line (da_text (l, c)).
Proof.
  unfold line, da_text. cbn [fst snd]. now rewrite !append_assoc.
Qed.

(** The loop over the lines of a file writes one [DA] line per item and
    counts the items and those of non-zero count. *)
Lemma write_lines_run (f : string) (lines : list (Z * Z)) (nz ni : Z) :
  foldM (write_line f) lines (nz, ni) =
  (inr (nz + Z.of_nat (lines_hit lines), ni + Z.of_nat (List.length lines)),
   map (EvWrite f) (map line (map da_text lines))).
Proof.
  revert nz ni. induction lines as [|[l c] r IH]; intros nz ni.
  - simpl. unfold ret, lines_hit. simpl. now rewrite !Z.add_0_r.
  - cbn [foldM]. unfold write_line at 1.
    unfold write. rewrite bind_tell. cbn [fst snd ret].
    erewrite bind_ok by reflexivity. rewrite IH. cbn [fst snd map app].
    rewrite da_line_eq.
    unfold lines_hit. cbn [filter fst snd List.length].
    destruct (c =? 0); cbn [negb List.length].
    all: apply (f_equal2 pair); [|reflexivity].
    all: apply f_equal, (f_equal2 pair); lia.
Qed.

Lemma write_file_run (f : string) (ign : bool) (entry : string * list (Z * Z)) :
  write_file E f ign entry =
  (inr tt,
   if skipped E ign (fst entry)
   then [EvLog WARNING (fst entry ++ " does not exist, skipping")]
   else EvLog INFO (fst entry) :: map (EvWrite f) (map line (record_text entry))).
Proof.
  destruct entry as [src lines]. unfold write_file, skipped. cbn [fst snd].
  destruct (ign && negb (path_exists E src))%bool; [reflexivity|].
  unfold logger, write. rewrite !bind_tell.
  erewrite bind_ok by apply write_lines_run.
  cbv beta iota. rewrite !bind_tell. cbn [fst snd tell app].
  unfold record_text. cbn [fst snd]. rewrite !Z.add_0_l.
  rewrite !map_app. reflexivity.
Qed.

Lemma save_run (p : string) (fli : FileLineCoverage) (ign : bool) :
  open_w E p = None ->
  _save_coverage_info E p fli ign =
  (inr tt,
   EvLog INFO ("Writing line coverage to " ++ p) :: EvOpen p ::
   EvWrite p (line "TN:") ::
   flat_map (fun entry => snd (write_file E p ign entry)) fli ++ [EvClose p]).
Proof.
  intros Ho. unfold _save_coverage_info, logger, open_, write, with_file.
  rewrite Ho, !bind_tell. unfold PyDict.items.
  rewrite for_ok by (intros x _; now rewrite write_file_run).
  reflexivity.
Qed.

Lemma save_raise (p : string) (fli : FileLineCoverage) (ign : bool) (e : exn) :
  open_w E p = Some e ->
  _save_coverage_info E p fli ign =
  (inl e, [EvLog INFO ("Writing line coverage to " ++ p)]).
Proof.
  intros Ho. unfold _save_coverage_info, logger, open_.
  rewrite Ho, bind_tell. reflexivity.
Qed.

Lemma file_step_writes (p : string) (chunks : list string) (acc : string) :
  fold_left (file_step p) (map (EvWrite p) chunks) acc = (acc ++ cat chunks)%string.
Proof.
  revert acc. induction chunks as [|c r IH]; intros acc; simpl.
  - now rewrite append_empty_r.
  - now rewrite String.eqb_refl, IH, append_assoc.
Qed.

Lemma file_step_records (p : string) (ign : bool) (fli : FileLineCoverage)
    (acc : string) :
  fold_left (file_step p)
            (flat_map (fun entry => snd (write_file E p ign entry)) fli) acc =
  (acc ++ cat (map line (flat_map record_text (emitted E ign fli))))%string.
Proof.
  revert acc. induction fli as [|entry r IH]; intros acc; simpl.
  - now rewrite append_empty_r.
  - rewrite fold_left_app, IH, write_file_run. cbn [snd].
    destruct (skipped E ign (fst entry)); cbn [negb].
    + reflexivity.
    + cbn [fold_left file_step flat_map].
      rewrite file_step_writes, append_assoc, map_app, cat_app. reflexivity.
Qed.

(** The text that the writer leaves in the file. *)
Lemma save_text (p : string) (fli : FileLineCoverage) (ign : bool) :
  open_w E p = None ->
  file_text p (snd (_save_coverage_info E p fli ign)) = lcov_report E ign fli.
Proof.
  intros Ho. rewrite save_run by exact Ho. cbn [snd]. unfold file_text.
  cbn [fold_left file_step]. rewrite String.eqb_refl.
  rewrite fold_left_app, file_step_records. cbn [fold_left file_step].
  unfold lcov_report. cbn [map cat fold_right]. reflexivity.
Qed.

(** What the writer writes: the [TN:] line or a line of the record of an
    emitted file. *)
Lemma save_writes (p : string) (fli : FileLineCoverage) (ign : bool)
    (q data : string) :
  open_w E p = None ->
  In (EvWrite q data) (snd (_save_coverage_info E p fli ign)) ->
  data = line "TN:" \/
  exists entry, In entry (emitted E ign fli) /\
                In data (map line (record_text entry)).
Proof.
  intros Ho. rewrite save_run by exact Ho. cbn [snd].
  intros [H | [H | [H | H]]]; try discriminate.
  - injection H as _ <-. now left.
  - right. apply in_app_or in H. destruct H as [H | [H | []]]; [|discriminate].
    apply in_flat_map in H. destruct H as [entry [Hin H]].
    rewrite write_file_run in H. cbn [snd] in H.
    destruct (skipped E ign (fst entry)) eqn:Es.
    + destruct H as [H | []]. discriminate.
    + destruct H as [H | H]; [discriminate|].
      apply in_map_iff in H. destruct H as [d [Hd Hi]].
      injection Hd as _ <-. exists entry. split; [|exact Hi].
      unfold emitted. apply filter_In. split; [exact Hin|].
      now rewrite Es.
Qed.

(** The warnings of the writer. *)
Lemma save_warns (p : string) (fli : FileLineCoverage) (ign : bool)
    (entry : string * list (Z * Z)) :
  open_w E p = None ->
  In entry fli -> skipped E ign (fst entry) = true ->
  In (EvLog WARNING (fst entry ++ " does not exist, skipping"))
     (snd (_save_coverage_info E p fli ign)).
Proof.
  intros Ho Hin Hs. rewrite save_run by exact Ho. cbn [snd].
  do 3 right. apply in_or_app. left.
  apply in_flat_map. exists entry. split; [exact Hin|].
  rewrite write_file_run, Hs. now left.
Qed.

End Writer.
End WriterFacts.

(** ** Properties of the writer *)

Module WriterProps.
Import PyStr Lcov Spec StrFacts MonadFacts LineFacts WriterFacts.

Lemma line_inj (a b : string) : line a = line b -> a = b.
Proof.
  unfold line. revert b. induction a as [|x a IH]; intros [|y b]; simpl.
  - reflexivity.
  - intros H. injection H as _ H. destruct b; discriminate.
  - intros H. injection H as _ H. destruct a; discriminate.
  - intros H. injection H as -> H. f_equal. now apply IH.
Qed.

Lemma emitted_true (E : Env) (fli : FileLineCoverage) :
  emitted E true fli = filter (fun entry => path_exists E (fst entry)) fli.
Proof.
  unfold emitted, skipped. apply filter_ext. intros entry. cbn [andb].
  apply negb_involutive.
Qed.

Lemma emitted_none (E : Env) (fli : FileLineCoverage) (ign : bool) :
  (forall entry, In entry fli ->
                 ign = true /\ path_exists E (fst entry) = false) ->
  emitted E ign fli = [].
Proof.
  intros H. unfold emitted, skipped.
  induction fli as [|entry r IH]; [reflexivity|].
  cbn [filter]. destruct (H entry (or_introl eq_refl)) as [-> ->].
  cbn [andb negb]. apply IH. intros e He. apply H. now right.
Qed.

(** The lines of a record hold no line feed when the path holds none, and
    none starts with [TN:]. *)
Lemma record_text_lines (entry : string * list (Z * Z)) :
  one_line (fst entry) = true ->
  forallb one_line (record_text entry) = true /\
  filter (String.prefix "TN:") (record_text entry) = [].
Proof.
  intros Hp. destruct entry as [src lines]. cbn [fst] in Hp.
  unfold record_text. cbn [fst snd].
  assert (Hda : forallb one_line (map da_text lines) = true /\
                filter (String.prefix "TN:") (map da_text lines) = []).
  { induction lines as [|[l c] r [IH1 IH2]]; [now split|].
    cbn [map forallb filter]. split.
    - rewrite IH1, andb_true_r. unfold da_text, one_line. cbn [fst snd].
      rewrite !all_chars_app. fold (one_line (fmt_d l)). fold (one_line (fmt_d c)).
      now rewrite !fmt_d_one_line.
    - exact IH2. }
  destruct Hda as [H1 H2]. split.
  - rewrite !forallb_app, H1. cbn [forallb]. unfold one_line in *.
    rewrite !all_chars_app, Hp, !(fmt_d_one_line). reflexivity.
  - rewrite !filter_app, H2. reflexivity.
Qed.

Lemma report_lines (E : Env) (fli : FileLineCoverage) (ign : bool) :
  (forall entry, In entry (emitted E ign fli) -> one_line (fst entry) = true) ->
  forallb one_line (flat_map record_text (emitted E ign fli)) = true /\
  filter (String.prefix "TN:") (flat_map record_text (emitted E ign fli)) = [].
Proof.
  induction (emitted E ign fli) as [|entry r IH]; intros H; [now split|].
  cbn [flat_map]. rewrite forallb_app, filter_app.
  destruct (record_text_lines entry (H entry (or_introl eq_refl))) as [-> ->].
  destruct IH as [-> ->]; [intros e He; apply H; now right|]. now split.
Qed.


(** C4. With the output file open, the writer returns without raising and
    leaves in the file the [TN:] line followed, for each file that is not
    skipped and in the order of the dictionary, by [SF:<path>], one
    [DA:<line>,<count>] per line of the file in the order of its
    dictionary, [LH:] with the number of lines of non-zero count, [LF:]
    with the number of lines, and [end_of_record].  For
    [{"/a.c": {10: 2, 11: 0, 12: 1}}] these are [SF:/a.c], [DA:10,2],
    [DA:11,0], [DA:12,1], [LH:2], [LF:3], [end_of_record]. *)
Theorem writer_emits_records (E : Env) (lcov_path : string)
    (file_line_info : FileLineCoverage) (ignore_missing_files : bool) :
  open_w E lcov_path = None ->
  fst (_save_coverage_info E lcov_path file_line_info ignore_missing_files)
    = inr tt /\
  file_text lcov_path
    (snd (_save_coverage_info E lcov_path file_line_info ignore_missing_files))
    = cat (map line
             ("TN:"%string ::
              flat_map record_text
                (emitted E ignore_missing_files file_line_info))) /\
  (forall src lines,
      record_text (src, lines) =
      [("SF:" ++ src)%string] ++
      map (fun item =>
             ("DA:" ++ fmt_d (fst item) ++ "," ++ fmt_d (snd item))%string)
          lines ++
      [("LH:" ++ fmt_d (Z.of_nat
                  (List.length
                     (filter (fun item => negb (snd item =? 0)%Z) lines))))%string;
       ("LF:" ++ fmt_d (Z.of_nat (List.length lines)))%string;
       "end_of_record"%string]) /\
  file_text lcov_path
    (snd (_save_coverage_info E lcov_path
            [("/a.c"%string, [(10, 2); (11, 0); (12, 1)])] false))
    = cat (map line
             ["TN:"; "SF:/a.c"; "DA:10,2"; "DA:11,0"; "DA:12,1";
              "LH:2"; "LF:3"; "end_of_record"]%string).
Proof.
  intros Ho. repeat split.
  - now rewrite save_run.
  - now apply save_text.
  - now rewrite save_text.
Qed.

Lemma writer_emits_records_witness :
  open_w Demo.env "/out/good.info" = None /\
  file_text "/out/good.info"
    (snd (_save_coverage_info Demo.env "/out/good.info" Demo.report true))
  = cat (map line
           ["TN:"; "SF:/a.c"; "DA:10,2"; "DA:11,0"; "DA:12,1";
            "LH:2"; "LF:3"; "end_of_record"]%string).
Proof.
  split; [reflexivity|].
  exact (proj1 (proj2 (@writer_emits_records Demo.env "/out/good.info"
                         Demo.report true eq_refl))).
Defined.

(** C7. With [ignore_missing_files] set and the output file open, the
    writer returns without raising; the file holds the [TN:] line and the
    records of the files that exist, in order; and for each file of the
    dictionary that does not exist a warning is logged and its [SF:] line
    is never written. *)
Theorem writer_skips_missing_files (E : Env) (lcov_path : string)
    (file_line_info : FileLineCoverage) :
  open_w E lcov_path = None ->
  fst (_save_coverage_info E lcov_path file_line_info true) = inr tt /\
  file_text lcov_path (snd (_save_coverage_info E lcov_path file_line_info true))
    = cat (map line
             ("TN:"%string ::
              flat_map record_text
                (filter (fun entry => path_exists E (fst entry))
                        file_line_info))) /\
  (forall entry,
      In entry file_line_info -> path_exists E (fst entry) = false ->
      In (EvLog WARNING (fst entry ++ " does not exist, skipping"))
         (snd (_save_coverage_info E lcov_path file_line_info true)) /\
      ~ In (EvWrite lcov_path (line ("SF:" ++ fst entry)))
           (snd (_save_coverage_info E lcov_path file_line_info true))).
Proof.
  intros Ho. split; [now rewrite save_run|]. split.
  - rewrite save_text by exact Ho. unfold lcov_report. now rewrite emitted_true.
  - intros entry Hin Hex. split.
    + apply save_warns; [exact Ho | exact Hin|].
      unfold skipped. now rewrite Hex.
    + intros Hw. apply save_writes in Hw; [|exact Ho].
      destruct Hw as [Hw | [entry' [He Hw]]]; [discriminate|].
      apply in_map_iff in Hw. destruct Hw as [d [Hd Hi]].
      apply line_inj in Hd. subst d.
      rewrite emitted_true in He. apply filter_In in He. destruct He as [_ He].
      unfold record_text in Hi.
      apply in_app_or in Hi. destruct Hi as [[Hi | []] | Hi].
      * injection Hi as Hi. rewrite Hi, Hex in He. discriminate.
      * apply in_app_or in Hi. destruct Hi as [Hi | Hi].
        -- apply in_map_iff in Hi. destruct Hi as [item [Hi _]]. discriminate.
        -- destruct Hi as [Hi | [Hi | [Hi | []]]]; discriminate.
Qed.

Lemma writer_skips_missing_files_witness :
  open_w Demo.env "/out/good.info" = None /\
  file_text "/out/good.info"
    (snd (_save_coverage_info Demo.env "/out/good.info"
            [("/gone.c"%string, [(1, 1)]); ("/a.c"%string, [(10, 2)])] true))
  = cat (map line ["TN:"; "SF:/a.c"; "DA:10,2"; "LH:1"; "LF:1";
                   "end_of_record"]%string).
Proof.
  split; [reflexivity|].
  exact (proj1 (proj2 (@writer_skips_missing_files Demo.env "/out/good.info"
                         [("/gone.c"%string, [(1, 1)]); ("/a.c"%string, [(10, 2)])]
                         eq_refl))).
Defined.

(** C10. With the output file open, when the dictionary is empty, or when
    [ignore_missing_files] is set and none of its files exists, the writer
    returns without raising, has opened the file, and leaves in it the line
    [TN:] and nothing else. *)
Theorem writer_no_record (E : Env) (lcov_path : string)
    (file_line_info : FileLineCoverage) (ignore_missing_files : bool) :
  open_w E lcov_path = None ->
  (forall entry, In entry file_line_info ->
     ignore_missing_files = true /\ path_exists E (fst entry) = false) ->
  fst (_save_coverage_info E lcov_path file_line_info ignore_missing_files)
    = inr tt /\
  In (EvOpen lcov_path)
     (snd (_save_coverage_info E lcov_path file_line_info ignore_missing_files)) /\
  file_text lcov_path
    (snd (_save_coverage_info E lcov_path file_line_info ignore_missing_files))
    = line "TN:".
Proof.
  intros Ho Hall. split; [now rewrite save_run|]. split.
  - rewrite save_run by exact Ho. cbn [snd]. right. now left.
  - rewrite save_text by exact Ho. unfold lcov_report.
    now rewrite (emitted_none E file_line_info Hall).
Qed.

Lemma writer_no_record_witness :
  file_text "/out/good.info"
    (snd (_save_coverage_info Demo.env "/out/good.info" [] false))
  = line "TN:" /\
  file_text "/out/good.info"
    (snd (_save_coverage_info Demo.env "/out/good.info"
            [("/gone.c"%string, [(1, 1)]); ("/lost.c"%string, [(2, 0)])] true))
  = line "TN:".
Proof.
  split.
  - apply (@writer_no_record Demo.env "/out/good.info" [] false eq_refl).
    intros entry [].
  - apply (@writer_no_record Demo.env "/out/good.info"
             [("/gone.c"%string, [(1, 1)]); ("/lost.c"%string, [(2, 0)])]
             true eq_refl).
    intros entry [<- | [<- | []]]; split; reflexivity.
Defined.

(** C9, as the code has it. With the output file open and no line feed in
    the paths of the emitted files, the file holds one line [TN:], its
    first, whatever the number of records: the lines of the file are [TN:]
    followed by the lines of the records, none of which starts with
    [TN:]. *)
Theorem writer_one_tn_line (E : Env) (lcov_path : string)
    (file_line_info : FileLineCoverage) (ignore_missing_files : bool) :
  open_w E lcov_path = None ->
  (forall entry,
      In entry (emitted E ignore_missing_files file_line_info) ->
      one_line (fst entry) = true) ->
  text_lines
    (file_text lcov_path
       (snd (_save_coverage_info E lcov_path file_line_info
               ignore_missing_files)))
    = "TN:"%string ::
      flat_map record_text (emitted E ignore_missing_files file_line_info) ++
      [EmptyString] /\
  count_tn
    (file_text lcov_path
       (snd (_save_coverage_info E lcov_path file_line_info
               ignore_missing_files)))
    = 1%nat.
Proof.
  intros Ho Hp. destruct (report_lines E file_line_info _ Hp) as [H1 H2].
  assert (Hl : text_lines
                 (file_text lcov_path
                    (snd (_save_coverage_info E lcov_path file_line_info
                            ignore_missing_files)))
               = "TN:"%string ::
                 flat_map record_text
                   (emitted E ignore_missing_files file_line_info) ++
                 [EmptyString]).
  { rewrite save_text by exact Ho. unfold lcov_report.
    rewrite text_lines_cat; [reflexivity|].
    cbn [forallb]. rewrite H1. reflexivity. }
  split; [exact Hl|].
  unfold count_tn. rewrite Hl. cbn [filter].
  change (String.prefix "TN:" "TN:") with true. cbv iota.
  rewrite filter_app, H2. reflexivity.
Qed.

Lemma writer_one_tn_line_witness :
  count_tn
    (file_text "/out/good.info"
       (snd (_save_coverage_info Demo.env "/out/good.info"
               [("/a.c"%string, [(1, 1)]); ("/b.c"%string, [(2, 0)])] false)))
  = 1%nat.
Proof.
  apply (@writer_one_tn_line Demo.env "/out/good.info"
           [("/a.c"%string, [(1, 1)]); ("/b.c"%string, [(2, 0)])] false eq_refl).
  intros entry [<- | [<- | []]]; reflexivity.
Defined.

(** C9, as stated, fails: with two files the report has two records and
    one [TN:] line. *)
Lemma tn_per_record_counterexample :
  count_tn
    (file_text "/out/good.info"
       (snd (_save_coverage_info Demo.env "/out/good.info"
               [("/a.c"%string, [(1, 1)]); ("/b.c"%string, [(2, 0)])] false)))
  <> List.length
       (emitted Demo.env false
          [("/a.c"%string, [(1, 1)]); ("/b.c"%string, [(2, 0)])]).
Proof. vm_compute. discriminate. Qed.

End WriterProps.

(** ** The run selector *)

Module SelectorProps.
Import PyStr Lcov Spec StrFacts MonadFacts LineFacts IntFacts.

Section Selector.
Variable E : Env.

(** The loop over the candidates keeps those that exist, in order. *)
Lemma candidates_run (dirname index : string) (n : Z) (idx : list Z)
    (acc : list string) :
  PyStr.int index = Some n ->
  foldM (candidate E dirname index) idx acc =
  (inr (acc ++ filter (path_exists E)
                 (map (fun i => OsPath.join dirname ("s2e-out-" ++ fmt_d (n - i)))
                      idx)),
   []).
Proof.
  intros Hi. revert acc. induction idx as [|i r IH]; intros acc.
  - cbn. now rewrite app_nil_r.
  - cbn [foldM map filter]. unfold candidate at 1, int_. rewrite Hi.
    cbn [bind ret].
    destruct (path_exists E (OsPath.join dirname ("s2e-out-" ++ fmt_d (n - i)))).
    + erewrite bind_ok by reflexivity. rewrite IH. cbn [fst snd app].
      now rewrite <- app_assoc.
    + erewrite bind_ok by reflexivity. rewrite IH. reflexivity.
Qed.

Lemma unpack_fails (options : Options) :
  aggregate_outputs options <> 0 ->
  List.length
    (split "-" (OsPath.basename (realpath E (project_path E "s2e-last"))))
  <> 3%nat ->
  exists msg, _get_output_folders E options = (inl (ValueError msg), []).
Proof.
  intros Hn Hl. unfold _get_output_folders.
  apply Z.eqb_neq in Hn. rewrite Hn. cbn [negb].
  destruct (split "-" (OsPath.basename (realpath E (project_path E "s2e-last"))))
    as [|a [|b [|c [|d r]]]]; cbn [List.length] in Hl; try congruence;
    cbn [List.length Nat.ltb Nat.leb]; eexists; reflexivity.
Qed.

End Selector.

Lemma range_sorted (index lo hi : Z) :
  StronglySorted Z.gt (map (fun i => index - i) (range lo hi)).
Proof.
  unfold range. generalize (Z.to_nat (hi - lo)) as len. generalize 0%nat as s.
  intros s len. revert s. induction len as [|len IH]; intros s; cbn.
  - constructor.
  - constructor; [apply IH|].
    apply Forall_forall. intros k Hk. rewrite map_map in Hk.
    apply in_map_iff in Hk. destruct Hk as [j [<- Hj]].
    apply in_seq in Hj. lia.
Qed.

Lemma filter_sorted {A} (R : A -> A -> Prop) (p : A -> bool) (l : list A) :
  StronglySorted R l -> StronglySorted R (filter p l).
Proof.
  induction 1 as [|x l Hs IH Hf]; cbn; [constructor|].
  destruct (p x); [|exact IH].
  constructor; [exact IH|].
  apply Forall_forall. intros y Hy. apply filter_In in Hy.
  rewrite Forall_forall in Hf. now apply Hf.
Qed.

(** C5. In last-N mode, when the real path of [s2e-last] is named
    [s2e-out-<index>], the selector returns without raising the folders
    [s2e-out-<index - i>] of the same directory for [i] from [0] to
    [N - 1], in that order, keeping those that exist: the folders
    [s2e-out-<k>] for the [k] with [index - N < k <= index] that exist, by
    strictly descending [k]. *)
Theorem last_n_folders (E : Env) (options : Options) (index : Z) :
  aggregate_outputs options <> 0 ->
  0 <= index ->
  OsPath.basename (realpath E (project_path E "s2e-last"))
    = ("s2e-out-" ++ fmt_d index)%string ->
  let dirname := OsPath.dirname (realpath E (project_path E "s2e-last")) in
  let folder := fun k => OsPath.join dirname ("s2e-out-" ++ fmt_d k) in
  _get_output_folders E options =
    (inr (filter (path_exists E)
            (map (fun i => folder (index - i))
                 (range 0 (aggregate_outputs options)))), []) /\
  exists ks,
    _get_output_folders E options = (inr (map folder ks), []) /\
    StronglySorted Z.gt ks /\
    forall k, In k ks <->
              index - aggregate_outputs options < k <= index /\
              path_exists E (folder k) = true.
Proof.
  intros Hn Hi Hb dirname folder.
  assert (Hrun : _get_output_folders E options =
    (inr (filter (path_exists E)
            (map (fun i => folder (index - i))
                 (range 0 (aggregate_outputs options)))), [])).
  { unfold _get_output_folders. apply Z.eqb_neq in Hn. rewrite Hn. cbn [negb].
    rewrite Hb, split_run_name by exact Hi.
    rewrite candidates_run with (n := index) by (now apply int_fmt_d).
    reflexivity. }
  split; [exact Hrun|].
  exists (filter (fun k => path_exists E (folder k))
            (map (fun i => index - i) (range 0 (aggregate_outputs options)))).
  split; [|split].
  - rewrite Hrun. clear Hrun. do 2 f_equal.
    induction (range 0 (aggregate_outputs options)) as [|i r IH];
      [reflexivity|].
    cbn [map filter]. destruct (path_exists E (folder (index - i)));
      cbn [map]; now rewrite IH.
  - apply filter_sorted, range_sorted.
  - intros k. rewrite filter_In, in_map_iff. split.
    + intros [[i [<- Hr]] He]. apply RangeFacts.In_range in Hr.
      split; [lia | exact He].
    + intros [Hk He]. split; [|exact He].
      exists (index - k). split; [lia|].
      apply RangeFacts.In_range. lia.
Qed.


Lemma last_n_folders_witness :
  _get_output_folders Demo.env Demo.options =
  (inr ["/proj/s2e-out-10"; "/proj/s2e-out-9"]%string, []).
Proof.
  rewrite (proj1 (@last_n_folders Demo.env Demo.options 10
                    ltac:(discriminate) ltac:(lia) eq_refl)).
  reflexivity.
Defined.

(** C8. In last-N mode, when the base name of the real path of [s2e-last]
    does not split at its dashes into three parts, the selector raises a
    [ValueError] (the configuration error of the command) and [handle],
    once the symbol manager is built, raises it; [handle] ends before any
    event: no folder is read, no module is mapped, no file is written. *)
Theorem malformed_run_name (E : Env) (options : Options) :
  aggregate_outputs options <> 0 ->
  List.length
    (split "-" (OsPath.basename (realpath E (project_path E "s2e-last"))))
  <> 3%nat ->
  exists msg,
    _get_output_folders E options = (inl (ValueError msg), []) /\
    (symbol_manager E = None ->
     handle E options = (inl (ValueError msg), [])) /\
    snd (handle E options) = [].
Proof.
  intros Hn Hl. destruct (unpack_fails E options Hn Hl) as [msg Hm].
  exists msg. split; [exact Hm|].
  unfold handle. rewrite Hm.
  destruct (symbol_manager E); split; try reflexivity; discriminate.
Qed.

Lemma malformed_run_name_witness :
  exists msg,
    _get_output_folders Demo.env_renamed Demo.options
      = (inl (ValueError msg), []) /\
    handle Demo.env_renamed Demo.options = (inl (ValueError msg), []).
Proof.
  destruct (@malformed_run_name Demo.env_renamed Demo.options
              ltac:(discriminate) ltac:(cbn; discriminate))
    as [msg [Hs [Hh _]]].
  exists msg. split; [exact Hs | exact (Hh eq_refl)].
Defined.

End SelectorProps.

(** ** The loop over the modules *)

Module OrchestratorProps.
Import PyStr Lcov Spec StrFacts MonadFacts LineFacts WriterFacts.

Section Orchestrator.
Variable E : Env.

(** The extraction of a folder whose traces can be loaded. *)
Lemma extract_directory_run (st : heap * ModuleCoverage) (directory : string)
    (tb : list (string * list RawBlockEntry)) :
  tb_coverage_files E directory = inr tb ->
  extract_directory E st directory =
  (inr (fold_left extract_module tb st),
   [EvLog INFO ("Extracting coverage info from " ++ directory ++ "...");
    EvLog INFO "Generating translation block coverage information";
    EvTbFiles directory]).
Proof.
  intros Ht. unfold extract_directory, _get_addr_coverage. now rewrite Ht.
Qed.

Lemma handle_module_ok (options : Options) (lcov_out_dir : string)
    (item : string * AddressCount) :
  fst (handle_module E options lcov_out_dir item) = inr tt.
Proof.
  unfold handle_module, try_except.
  destruct (report_module E options lcov_out_dir item) as [[e | []] t];
    reflexivity.
Qed.

Lemma handle_modules_run (options : Options) (lcov_out_dir : string)
    (coverage : list (string * AddressCount)) :
  handle_modules E options lcov_out_dir coverage =
  (inr tt,
   flat_map (fun item => snd (handle_module E options lcov_out_dir item))
            coverage).
Proof.
  unfold handle_modules. apply for_ok. intros item _. apply handle_module_ok.
Qed.

(** A module whose mapping raises: the error is logged. *)
Lemma handle_module_raise (options : Options) (lcov_out_dir module_path : string)
    (addr_counts : AddressCount) (e : exn) :
  get_coverage E module_path addr_counts (include_covered_files_only options)
    = inl e ->
  handle_module E options lcov_out_dir (module_path, addr_counts) =
  (inr tt,
   [EvGetCoverage module_path addr_counts (include_covered_files_only options);
    EvLog ERROR (str e)]).
Proof.
  intros Hg. unfold handle_module, report_module. rewrite bind_tell, Hg.
  reflexivity.
Qed.

(** A module that is mapped and whose report can be opened. *)
Lemma handle_module_report (options : Options) (lcov_out_dir module_path : string)
    (addr_counts : AddressCount) (fli : FileLineCoverage) :
  let lcov_info_path :=
    OsPath.join lcov_out_dir (OsPath.basename module_path ++ ".info") in
  get_coverage E module_path addr_counts (include_covered_files_only options)
    = inr fli ->
  open_w E lcov_info_path = None ->
  handle_module E options lcov_out_dir (module_path, addr_counts) =
  (inr tt,
   EvGetCoverage module_path addr_counts (include_covered_files_only options) ::
   snd (_save_coverage_info E lcov_info_path fli (html options)) ++
   EvLog SUCCESS ("Line coverage saved to " ++ lcov_info_path) ::
   after_report E options lcov_out_dir module_path).
Proof.
  intros lcov_info_path Hg Ho.
  unfold handle_module, report_module, after_report.
  rewrite bind_tell, Hg. fold lcov_info_path.
  erewrite (bind_ok _ (a := fli)) by reflexivity. cbv beta.
  rewrite (save_run E lcov_info_path fli (html options) Ho).
  erewrite (bind_ok _ (a := tt)) by reflexivity.
  unfold logger. rewrite bind_tell. unfold _gen_html.
  destruct (html options).
  - rewrite bind_tell.
    destruct (genhtml E lcov_info_path
                (OsPath.join lcov_out_dir (OsPath.basename module_path ++ "_lcov")))
      as [[m | m | m | m | m] |]; cbn; rewrite <- ?app_assoc; reflexivity.
  - cbn. rewrite <- ?app_assoc. reflexivity.
Qed.


Lemma after_report_text (options : Options) (lcov_out_dir module_path p : string)
    (text : string) :
  fold_left (file_step p) (after_report E options lcov_out_dir module_path) text
  = text.
Proof.
  unfold after_report. destruct (html options); [|reflexivity].
  destruct (genhtml E _ _) as [[m | m | m | m | m] |]; reflexivity.
Qed.

End Orchestrator.

(** C6. The loop over the modules never raises and runs the body for every
    module, in order, whatever happened to the modules before.  An
    exception raised in the [try] block of a module is logged and the body
    ends normally.  The body starts by calling the symbol manager for its
    module; when that call raises, nothing else is done for the module;
    when it returns and the report file can be opened, the report of the
    module is written and its success is logged.  [handle] runs the loop over the aggregated
    coverage once the folders are selected and their traces extracted. *)
Theorem modules_are_isolated (E : Env) (options : Options)
    (lcov_out_dir : string) (coverage : list (string * AddressCount)) :
  handle_modules E options lcov_out_dir coverage =
    (inr tt,
     flat_map (fun item => snd (handle_module E options lcov_out_dir item))
              coverage) /\
  (forall module_path addr_counts,
      let cov := include_covered_files_only options in
      let lcov_info_path :=
        OsPath.join lcov_out_dir (OsPath.basename module_path ++ ".info") in
      let run := handle_module E options lcov_out_dir (module_path, addr_counts) in
      fst run = inr tt /\
      (forall e t,
          report_module E options lcov_out_dir (module_path, addr_counts)
            = (inl e, t) ->
          run = (inr tt, t ++ [EvLog ERROR (str e)])) /\
      (exists rest, snd run = EvGetCoverage module_path addr_counts cov :: rest) /\
      (forall e,
          get_coverage E module_path addr_counts cov = inl e ->
          snd run = [EvGetCoverage module_path addr_counts cov;
                     EvLog ERROR (str e)]) /\
      (forall fli,
          get_coverage E module_path addr_counts cov = inr fli ->
          open_w E lcov_info_path = None ->
          (exists rest,
              snd run =
              EvGetCoverage module_path addr_counts cov ::
              snd (_save_coverage_info E lcov_info_path fli (html options)) ++
              EvLog SUCCESS ("Line coverage saved to " ++ lcov_info_path) ::
              rest) /\
          file_text lcov_info_path (snd run)
            = lcov_report E (html options) fli)) /\
  (forall folders h aggregated t,
      symbol_manager E = None ->
      _get_output_folders E options = (inr folders, []) ->
      foldM (extract_directory E) folders ([], []) = (inr (h, aggregated), t) ->
      handle E options =
        (inr tt,
         t ++ flat_map
                (fun item =>
                   snd (handle_module E options
                          match Lcov.lcov_out_dir options with
                          | Some d =>
                              if OsPath.is_empty d
                              then project_path E "s2e-last" else d
                          | None => project_path E "s2e-last"
                          end item))
                (contents h aggregated))).
Proof.
  split; [apply handle_modules_run|]. split.
  - intros module_path addr_counts cov lcov_info_path run.
    split; [apply handle_module_ok|]. split; [|split; [|split]].
    + intros e t Hr. unfold run, handle_module. now rewrite Hr.
    + unfold run, handle_module, report_module. rewrite bind_tell.
      unfold try_except.
      match goal with
      | |- context [fst ?m] => destruct m as [[e | []] t]
      end; cbn [fst snd]; eexists; reflexivity.
    + intros e He. unfold run. now rewrite (handle_module_raise E _ _ _ _ He).
    + intros fli Hg Ho. unfold run.
      rewrite (handle_module_report E _ _ _ _ Hg Ho). cbn [snd].
      split; [eexists; reflexivity|].
      fold lcov_info_path. rewrite save_run by exact Ho. cbn [snd app].
      unfold file_text. cbn [fold_left file_step]. rewrite fold_left_app.
      cbn [fold_left file_step]. rewrite String.eqb_refl.
      rewrite !fold_left_app, file_step_records. cbn [fold_left file_step].
      rewrite after_report_text. unfold lcov_report. reflexivity.
  - intros folders h aggregated t Hs Hf Ht.
    unfold handle. rewrite Hs, Hf. cbn [bind ret]. rewrite Ht. cbn [bind].
    rewrite handle_modules_run. reflexivity.
Qed.

Lemma modules_are_isolated_witness :
  let coverage :=
    [("/bin/bad"%string, [(5, 2); (6, 2)]); ("/bin/good"%string, [(100, 2)])] in
  In (EvLog ERROR "no debug information")
     (snd (handle_modules Demo.env Demo.options "/out" coverage)) /\
  file_text "/out/good.info"
    (snd (handle_modules Demo.env Demo.options "/out" coverage))
  = cat (map line ["TN:"; "SF:/a.c"; "DA:10,2"; "DA:11,0"; "DA:12,1";
                   "LH:2"; "LF:3"; "end_of_record"]%string) /\
  In (EvLog ERROR "no debug information") (snd (handle Demo.env Demo.options)) /\
  file_text "/out/good.info" (snd (handle Demo.env Demo.options))
  = cat (map line ["TN:"; "SF:/a.c"; "DA:10,2"; "DA:11,0"; "DA:12,1";
                   "LH:2"; "LF:3"; "end_of_record"]%string).
Proof.
  cbv zeta.
  rewrite (proj1 (modules_are_isolated Demo.env Demo.options "/out"
                    [("/bin/bad"%string, [(5, 2); (6, 2)]);
                     ("/bin/good"%string, [(100, 2)])])).
  repeat split; vm_compute;
    first [reflexivity | repeat (first [left; reflexivity | right])].
Defined.

End OrchestratorProps.

(** ** More on the merger *)

Module MergerMore.
Import Lcov Spec Cover HeapFacts MergerProps.

Lemma store_out_of_range (h : heap) (l : loc) (d : AddressCount) :
  (List.length h <= l)%nat -> store h l d = h.
Proof.
  revert l. induction h as [|x r IH]; intros [|l] H; cbn in *;
    try reflexivity; try lia.
  f_equal. apply IH. lia.
Qed.

Lemma deref_out_of_range (h : heap) (l : loc) :
  (List.length h <= l)%nat -> deref h l = [].
Proof. intros H. unfold deref. now apply nth_overflow. Qed.

(** An object after a store: the stored dictionary at the location stored
    to, when it is in the heap; what it was anywhere else. *)
Lemma deref_store (h : heap) (l l' : loc) (d : AddressCount) :
  deref (store h l d) l' =
  if (Nat.eqb l' l && Nat.ltb l (List.length h))%bool then d else deref h l'.
Proof.
  destruct (Nat.eqb_spec l' l) as [-> | Hne]; cbn [andb].
  - destruct (Nat.ltb_spec l (List.length h)) as [Hl | Hl].
    + now apply deref_store_same.
    + now rewrite store_out_of_range.
  - now apply deref_store_other.
Qed.

(** One turn of the loop stores to [cov] a dictionary made from the one at
    [cov] by setting one key, or does nothing. *)
Lemma merge_addr_cases (cov l : loc) (h : heap) (a : Z) :
  merge_addr cov l h a = h \/
  exists v, merge_addr cov l h a = store h cov (PyDict.set Z.eqb a v (deref h cov)).
Proof.
  unfold merge_addr. destruct (PyDict.get Z.eqb a (deref h l)); [|now left].
  destruct (PyDict.get Z.eqb a (deref h cov)); right; eexists; reflexivity.
Qed.

Lemma merge_addr_length (cov l : loc) (h : heap) (a : Z) :
  List.length (merge_addr cov l h a) = List.length h.
Proof.
  destruct (merge_addr_cases cov l h a) as [-> | [v ->]];
    [reflexivity | apply length_store].
Qed.

Lemma merge_addr_keys (cov l : loc) (h : heap) (a : Z) (l' : loc) (k : Z) :
  In k (PyDict.keys (deref h l')) ->
  In k (PyDict.keys (deref (merge_addr cov l h a) l')).
Proof.
  destruct (merge_addr_cases cov l h a) as [-> | [v ->]]; [auto|].
  rewrite deref_store.
  destruct (Nat.eqb_spec l' cov) as [-> | Hne]; cbn [andb]; [|auto].
  destruct (Nat.ltb cov (List.length h)); [|auto].
  intros H. apply (PyDictFacts.In_keys_set Z.eqb Z.eqb_eq). now right.
Qed.

Lemma merge_addr_wf (cov l : loc) (h : heap) (a : Z) :
  (forall l', PyDict.wf (deref h l')) ->
  forall l', PyDict.wf (deref (merge_addr cov l h a) l').
Proof.
  intros W l'. destruct (merge_addr_cases cov l h a) as [-> | [v ->]]; [auto|].
  rewrite deref_store.
  destruct (Nat.eqb l' cov && Nat.ltb cov (List.length h))%bool; [|auto].
  apply (PyDictFacts.wf_set Z.eqb Z.eqb_eq). apply W.
Qed.

(** The loop of the merger keeps the size of the heap, the keys of every
    object, and the objects dictionaries. *)
Lemma merge_loop_keeps (cov l : loc) (ks : list Z) (h : heap) :
  let h' := fold_left (merge_addr cov l) ks h in
  List.length h' = List.length h /\
  (forall l' k, In k (PyDict.keys (deref h l')) ->
                In k (PyDict.keys (deref h' l'))) /\
  ((forall l', PyDict.wf (deref h l')) -> forall l', PyDict.wf (deref h' l')).
Proof.
  cbn zeta. revert h. induction ks as [|a r IH]; intros h; cbn [fold_left].
  - repeat split; auto.
  - destruct (IH (merge_addr cov l h a)) as [L [K W]]. split; [|split].
    + rewrite L. apply merge_addr_length.
    + intros l' k Hk. apply K. now apply merge_addr_keys.
    + intros Hw. apply W. now apply merge_addr_wf.
Qed.

Lemma merge_heap (h : heap) (coverage : ModuleCoverage) (m : string) (l : loc) :
  fst (_merge_coverage h coverage m l) =
  fold_left (merge_addr (target coverage m l) l) (PyDict.keys (deref h l)) h.
Proof.
  unfold _merge_coverage, target, PyDict.mem.
  destruct (PyDict.get String.eqb m coverage) as [cov|] eqn:Eg; cbn [negb].
  - now rewrite Eg.
  - now rewrite module_get_set.
Qed.

Lemma merge_coverage_dict (h : heap) (coverage : ModuleCoverage) (m : string)
    (l : loc) :
  snd (_merge_coverage h coverage m l) =
  if PyDict.mem String.eqb m coverage then coverage
  else PyDict.set String.eqb m l coverage.
Proof.
  unfold _merge_coverage, PyDict.mem.
  destruct (PyDict.get String.eqb m coverage) as [cov|] eqn:Eg; cbn [negb].
  - now rewrite Eg.
  - now rewrite module_get_set.
Qed.

(** The counts after a merge, in the three cases of the code. *)
Lemma merge_counts (h : heap) (coverage : ModuleCoverage) (m : string) (l : loc) :
  (l < List.length h)%nat ->
  (target coverage m l < List.length h)%nat ->
  PyDict.wf (deref h l) ->
  let h' := fst (_merge_coverage h coverage m l) in
  let t := target coverage m l in
  (forall l', l' <> t -> deref h' l' = deref h l') /\
  forall a,
    PyDict.get Z.eqb a (deref h' t) =
    if Nat.eqb t l
    then option_map (fun c => c + c) (PyDict.get Z.eqb a (deref h l))
    else added (PyDict.get Z.eqb a (deref h l)) (PyDict.get Z.eqb a (deref h t)).
Proof.
  intros Hl Ht Hw. cbn zeta. rewrite merge_heap.
  destruct (Nat.eqb_spec (target coverage m l) l) as [He | Hne].
  - rewrite He.
    destruct (@merge_self l (PyDict.keys (deref h l)) h Hl Hw (fun k H => H))
      as [_ [O [_ G]]]. cbn zeta in *. split; [exact O|].
    intros a. rewrite G.
    destruct (in_dec Z.eq_dec a (PyDict.keys (deref h l))) as [Hin | Hin];
      [reflexivity|].
    apply (PyDictFacts.get_None_keys Z.eqb Z.eqb_eq) in Hin. now rewrite Hin.
  - destruct (@merge_other (target coverage m l) l (PyDict.keys (deref h l)) h
                Hne Ht Hw) as [_ [O G]]. cbn zeta in *. split; [exact O|].
    intros a. rewrite G.
    destruct (in_dec Z.eq_dec a (PyDict.keys (deref h l))) as [Hin | Hin];
      [reflexivity|].
    apply (PyDictFacts.get_None_keys Z.eqb Z.eqb_eq) in Hin. now rewrite Hin.
Qed.


(** The merger on a module that is known and bound to another object than
    the one passed. *)
Lemma merge_known (h : heap) (coverage : ModuleCoverage) (m : string)
    (cov l : loc) :
  PyDict.get String.eqb m coverage = Some cov ->
  cov <> l -> (cov < List.length h)%nat -> PyDict.wf (deref h l) ->
  let h' := fst (_merge_coverage h coverage m l) in
  snd (_merge_coverage h coverage m l) = coverage /\
  List.length h' = List.length h /\
  (forall l', l' <> cov -> deref h' l' = deref h l') /\
  forall a, PyDict.get Z.eqb a (deref h' cov) =
            added (PyDict.get Z.eqb a (deref h l))
                  (PyDict.get Z.eqb a (deref h cov)).
Proof.
  intros Hg Hne Hc Hw. cbn zeta.
  rewrite merge_coverage_dict, merge_heap. unfold PyDict.mem, target.
  rewrite Hg. split; [reflexivity|].
  destruct (@merge_other cov l (PyDict.keys (deref h l)) h Hne Hc Hw)
    as [L [O G]]. cbn zeta in *. split; [exact L|]. split; [exact O|].
  intros a. rewrite G.
  destruct (in_dec Z.eq_dec a (PyDict.keys (deref h l))) as [Hin | Hin];
    [reflexivity|].
  apply (PyDictFacts.get_None_keys Z.eqb Z.eqb_eq) in Hin. now rewrite Hin.
Qed.

Lemma added_comm (x y old : option Z) :
  added x (added y old) = added y (added x old).
Proof.
  destruct x, y, old; cbn; try reflexivity; f_equal; lia.
Qed.

Lemma module_get_In (coverage : ModuleCoverage) (m : string) (l : loc) :
  PyDict.get String.eqb m coverage = Some l -> In (m, l) coverage.
Proof. apply (PyDictFacts.get_Some_In String.eqb String.eqb_eq). Qed.

(** Two modules bound to one object are one module. *)
Lemma shared_object (coverage : ModuleCoverage) (m m' : string) (l : loc) :
  NoDup (map snd coverage) ->
  In (m, l) coverage -> In (m', l) coverage -> m = m'.
Proof.
  induction coverage as [|[m0 l0] r IH]; cbn; [tauto|].
  intros Hn. inversion Hn as [|x y Hx Hr]; subst.
  intros [H1 | H1] [H2 | H2].
  - congruence.
  - injection H1 as -> ->. exfalso. apply Hx.
    change l with (snd (m', l)). now apply in_map.
  - injection H2 as -> ->. exfalso. apply Hx.
    change l with (snd (m, l)). now apply in_map.
  - now apply IH.
Qed.

(** X1. The merger as the extractor calls it, with a fresh object for
    the dictionary passed and no object shared by two modules.  Read
    through the coverage, the counts of the module merged are: the count
    passed added to the count so far when the coverage holds the module,
    and twice the count passed when it does not; the counts of every other
    module are as before. *)
Theorem merge_coverage_counts (h : heap) (coverage : ModuleCoverage)
    (module_name : string) (module_coverage : loc) :
  (module_coverage < List.length h)%nat ->
  (forall m l, In (m, l) coverage -> (l < List.length h)%nat) ->
  NoDup (map snd coverage) ->
  ~ In module_coverage (map snd coverage) ->
  PyDict.wf (deref h module_coverage) ->
  forall m addr,
    count (_merge_coverage h coverage module_name module_coverage) m addr =
    if String.eqb m module_name then
      if known (h, coverage) module_name
      then added (PyDict.get Z.eqb addr (deref h module_coverage))
                 (count (h, coverage) module_name addr)
      else option_map (fun c => c + c)
             (PyDict.get Z.eqb addr (deref h module_coverage))
    else count (h, coverage) m addr.
Proof.
  intros Hl Hv Nd Hf Hw m addr.
  pose proof (merge_coverage_dict h coverage module_name module_coverage) as Es.
  unfold count, known, PyDict.mem in *. cbn [fst snd]. rewrite Es.
  assert (Hin : forall m' l', PyDict.get String.eqb m' coverage = Some l' ->
                              In l' (map snd coverage)).
  { intros m' l' Hg. change l' with (snd (m', l')). apply in_map.
    now apply module_get_In. }
  destruct (PyDict.get String.eqb module_name coverage) as [c|] eqn:Eg.
  - assert (Hc : (c < List.length h)%nat)
      by (apply (Hv module_name); now apply module_get_In).
    assert (Hne : c <> module_coverage)
      by (intros ->; apply Hf; now apply (Hin module_name)).
    destruct (@merge_known h coverage module_name c module_coverage
                Eg Hne Hc Hw) as [_ [_ [O G]]].
    cbn zeta in O, G.
    destruct (String.eqb_spec m module_name) as [-> | Hm].
    + rewrite Eg. apply G.
    + destruct (PyDict.get String.eqb m coverage) as [c'|] eqn:Eg';
        [|reflexivity].
      f_equal. apply O. intros ->. apply Hm.
      apply (@shared_object coverage m module_name c Nd);
        now apply module_get_In.
  - assert (Ht : target coverage module_name module_coverage = module_coverage)
      by (unfold target; now rewrite Eg).
    destruct (@merge_counts h coverage module_name module_coverage
                Hl ltac:(rewrite Ht; exact Hl) Hw) as [O G].
    cbn zeta in O, G. rewrite Ht in O, G. rewrite Nat.eqb_refl in G.
    destruct (String.eqb_spec m module_name) as [-> | Hm].
    + rewrite module_get_set. apply G.
    + rewrite (PyDictFacts.get_set_other String.eqb String.eqb_eq)
        by congruence.
      destruct (PyDict.get String.eqb m coverage) as [c'|] eqn:Eg';
        [|reflexivity].
      f_equal. apply O. intros ->. apply Hf. now apply (Hin m).
Qed.

Lemma merge_coverage_counts_witness :
  count (_merge_coverage [[(100, 2)]; [(100, 1); (101, 1)]]
           [("mod"%string, 0%nat)] "mod" 1%nat) "mod" 100 = Some 3 /\
  count (_merge_coverage [[(100, 2)]; [(100, 1); (101, 1)]]
           [("mod"%string, 0%nat)] "new" 1%nat) "new" 100 = Some 2.
Proof.
  split.
  - apply (@merge_coverage_counts [[(100, 2)]; [(100, 1); (101, 1)]]
             [("mod"%string, 0%nat)] "mod" 1%nat); cbn.
    + lia.
    + intros m l [[= <- <-] | []]. lia.
    + repeat constructor. cbn. tauto.
    + intros [H | []]. discriminate H.
    + dict_wf.
  - apply (@merge_coverage_counts [[(100, 2)]; [(100, 1); (101, 1)]]
             [("mod"%string, 0%nat)] "new" 1%nat); cbn.
    + lia.
    + intros m l [[= <- <-] | []]. lia.
    + repeat constructor. cbn. tauto.
    + intros [H | []]. discriminate H.
    + dict_wf.
Defined.

(** X2. The merger never forgets: whatever it is given, the heap keeps its
    size, a module that the coverage holds stays bound to the same object,
    and an address bound in an object stays bound in it. *)
Theorem merge_never_forgets (h : heap) (coverage : ModuleCoverage)
    (module_name : string) (module_coverage : loc) :
  List.length (fst (_merge_coverage h coverage module_name module_coverage))
    = List.length h /\
  (forall m l,
      PyDict.get String.eqb m coverage = Some l ->
      PyDict.get String.eqb m
        (snd (_merge_coverage h coverage module_name module_coverage))
      = Some l) /\
  (forall l addr,
      In addr (PyDict.keys (deref h l)) ->
      In addr
        (PyDict.keys
           (deref (fst (_merge_coverage h coverage module_name module_coverage))
                  l))).
Proof.
  rewrite merge_heap, merge_coverage_dict.
  destruct (merge_loop_keeps (target coverage module_name module_coverage)
              module_coverage (PyDict.keys (deref h module_coverage)) h)
    as [L [K _]]. cbn zeta in *.
  split; [exact L|]. split; [|exact K].
  intros m l Hg. unfold PyDict.mem.
  destruct (PyDict.get String.eqb module_name coverage) eqn:Em; [exact Hg|].
  rewrite (PyDictFacts.get_set String.eqb String.eqb_eq).
  destruct (String.eqb_spec module_name m) as [-> | Hne]; [congruence | exact Hg].
Qed.

(** X3. When the dictionary passed is well formed and holds no negative
    count, no count of the heap decreases in a merge: every address bound
    before is bound after to a count at least as large. *)
Theorem merge_counts_grow (h : heap) (coverage : ModuleCoverage)
    (module_name : string) (module_coverage : loc) :
  (module_coverage < List.length h)%nat ->
  (target coverage module_name module_coverage < List.length h)%nat ->
  PyDict.wf (deref h module_coverage) ->
  nonneg (deref h module_coverage) ->
  forall l addr c,
    PyDict.get Z.eqb addr (deref h l) = Some c ->
    exists c',
      PyDict.get Z.eqb addr
        (deref (fst (_merge_coverage h coverage module_name module_coverage)) l)
      = Some c' /\ c <= c'.
Proof.
  intros Hl Ht Hw Hn l addr c Hc.
  destruct (@merge_counts h coverage module_name module_coverage Hl Ht Hw)
    as [O G].
  cbn zeta in *.
  destruct (Nat.eq_dec l (target coverage module_name module_coverage))
    as [-> | Hne].
  - rewrite G.
    destruct (Nat.eqb_spec (target coverage module_name module_coverage)
                module_coverage) as [He | He].
    + rewrite He in Hc. rewrite Hc. cbn. eexists. split; [reflexivity|].
      specialize (Hn addr c Hc). lia.
    + rewrite Hc.
      destruct (PyDict.get Z.eqb addr (deref h module_coverage)) as [ci|] eqn:Ei;
        cbn.
      * exists (c + ci). split; [reflexivity|].
        specialize (Hn addr ci Ei). lia.
      * exists c. split; [reflexivity | lia].
  - rewrite (O l Hne). exists c. split; [exact Hc | lia].
Qed.

Lemma merge_counts_grow_witness :
  exists c',
    PyDict.get Z.eqb 100
      (deref (fst (_merge_coverage [[(100, 2)]; [(100, 1); (101, 1)]]
                     [("mod"%string, 0%nat)] "mod" 1%nat)) 0%nat)
    = Some c' /\ 2 <= c'.
Proof.
  apply (@merge_counts_grow [[(100, 2)]; [(100, 1); (101, 1)]]
           [("mod"%string, 0%nat)] "mod" 1%nat
           ltac:(cbn; lia) ltac:(cbn; lia) ltac:(dict_wf)).
  - intros addr c. cbn.
    destruct (addr =? 100); [intros [= <-]; lia|].
    destruct (addr =? 101); [intros [= <-]; lia | discriminate].
  - reflexivity.
Defined.

(** X4. For a module that the coverage holds, merging two dictionaries
    that are other objects than the one of the module gives the same counts
    in both orders, and leaves every other object as it was. *)
Theorem merge_known_module_commutes (h : heap) (coverage : ModuleCoverage)
    (module_name : string) (cov l1 l2 : loc) :
  PyDict.get String.eqb module_name coverage = Some cov ->
  (cov < List.length h)%nat ->
  l1 <> cov -> l2 <> cov ->
  PyDict.wf (deref h l1) -> PyDict.wf (deref h l2) ->
  let merge := fun st l => _merge_coverage (fst st) (snd st) module_name l in
  let st12 := merge (merge (h, coverage) l1) l2 in
  let st21 := merge (merge (h, coverage) l2) l1 in
  snd st12 = coverage /\ snd st21 = coverage /\
  (forall addr,
      PyDict.get Z.eqb addr (deref (fst st12) cov) =
      PyDict.get Z.eqb addr (deref (fst st21) cov)) /\
  (forall addr,
      PyDict.get Z.eqb addr (deref (fst st12) cov) =
      added (PyDict.get Z.eqb addr (deref h l2))
            (added (PyDict.get Z.eqb addr (deref h l1))
                   (PyDict.get Z.eqb addr (deref h cov)))) /\
  (forall l, l <> cov -> deref (fst st12) l = deref h l /\
                         deref (fst st21) l = deref h l).
Proof.
  intros Hg Hc H1 H2 W1 W2. cbn zeta. cbn [fst snd].
  destruct (@merge_known h coverage module_name cov l1 Hg (not_eq_sym H1) Hc W1)
    as [C1 [L1 [O1 G1]]].
  destruct (@merge_known h coverage module_name cov l2 Hg (not_eq_sym H2) Hc W2)
    as [C2 [L2 [O2 G2]]].
  cbn zeta in *.
  set (ha := fst (_merge_coverage h coverage module_name l1)) in *.
  set (hb := fst (_merge_coverage h coverage module_name l2)) in *.
  rewrite C1, C2.
  assert (Wa : PyDict.wf (deref ha l2)) by (rewrite (O1 l2 H2); exact W2).
  assert (Wb : PyDict.wf (deref hb l1)) by (rewrite (O2 l1 H1); exact W1).
  assert (Ca : (cov < List.length ha)%nat) by lia.
  assert (Cb : (cov < List.length hb)%nat) by lia.
  destruct (@merge_known ha coverage module_name cov l2 Hg (not_eq_sym H2) Ca Wa)
    as [C12 [_ [O12 G12]]].
  destruct (@merge_known hb coverage module_name cov l1 Hg (not_eq_sym H1) Cb Wb)
    as [C21 [_ [O21 G21]]].
  cbn zeta in *.
  assert (E12 : forall addr,
             PyDict.get Z.eqb addr
               (deref (fst (_merge_coverage ha coverage module_name l2)) cov) =
             added (PyDict.get Z.eqb addr (deref h l2))
                   (added (PyDict.get Z.eqb addr (deref h l1))
                          (PyDict.get Z.eqb addr (deref h cov))))
    by (intros addr; now rewrite G12, G1, (O1 l2 H2)).
  repeat split.
  - exact C12.
  - exact C21.
  - intros addr. rewrite E12, G21, G2, (O2 l1 H1). apply added_comm.
  - exact E12.
  - now rewrite (O12 l H), (O1 l H).
  - now rewrite (O21 l H), (O2 l H).
Qed.

Lemma merge_known_module_commutes_witness :
  PyDict.get Z.eqb 2
    (deref (fst (_merge_coverage
                   (fst (_merge_coverage [[(1, 2)]; [(1, 1); (2, 1)]; [(2, 1)]]
                           [("m"%string, 0%nat)] "m" 1%nat))
                   (snd (_merge_coverage [[(1, 2)]; [(1, 1); (2, 1)]; [(2, 1)]]
                           [("m"%string, 0%nat)] "m" 1%nat))
                   "m" 2%nat)) 0%nat)
  = Some 2.
Proof.
  exact (proj1 (proj2 (proj2 (proj2
           (@merge_known_module_commutes
              [[(1, 2)]; [(1, 1); (2, 1)]; [(2, 1)]] [("m"%string, 0%nat)]
              "m" 0%nat 1%nat 2%nat eq_refl ltac:(cbn; lia)
              ltac:(discriminate) ltac:(discriminate)
              ltac:(dict_wf) ltac:(dict_wf))))) 2).
Defined.

End MergerMore.

(** ** More on the extractor *)

Module ExtractorMore.
Import Lcov Spec Cover HeapFacts MergerProps MergerMore ExtractorProps.

Lemma deref_alloc_new (h : heap) (d : AddressCount) :
  deref (h ++ [d]) (List.length h) = d.
Proof. unfold deref. now rewrite nth_middle. Qed.

Lemma deref_alloc_old (h : heap) (d : AddressCount) (l : loc) :
  l <> List.length h -> deref (h ++ [d]) l = deref h l.
Proof.
  intros Hne. unfold deref.
  destruct (Nat.lt_ge_cases l (List.length h)) as [Hl | Hl].
  - now apply app_nth1.
  - rewrite !nth_overflow; [reflexivity | exact Hl|].
    rewrite length_app. cbn. lia.
Qed.

Lemma alloc_wf (h : heap) (d : AddressCount) :
  (forall l, PyDict.wf (deref h l)) -> PyDict.wf d ->
  forall l, PyDict.wf (deref (h ++ [d]) l).
Proof.
  intros Wh Wd l. destruct (Nat.eq_dec l (List.length h)) as [-> | Hne].
  - now rewrite deref_alloc_new.
  - now rewrite deref_alloc_old.
Qed.

Lemma addr_counts_of_get (blocks : list RawBlockEntry) (addr : Z) :
  PyDict.get Z.eqb addr (addr_counts_of blocks) = block_count blocks addr.
Proof. unfold addr_counts_of. now rewrite expand_blocks_get. Qed.

Lemma addr_counts_of_wf (blocks : list RawBlockEntry) :
  PyDict.wf (addr_counts_of blocks).
Proof. apply expand_blocks_wf. constructor. Qed.

Lemma module_get_other (coverage : ModuleCoverage) (m m' : string) (l : loc) :
  m <> m' ->
  PyDict.get String.eqb m' (PyDict.set String.eqb m l coverage)
  = PyDict.get String.eqb m' coverage.
Proof. apply (PyDictFacts.get_set_other String.eqb String.eqb_eq). Qed.

Lemma set_absent (coverage : ModuleCoverage) (m : string) (l : loc) :
  PyDict.get String.eqb m coverage = None ->
  PyDict.set String.eqb m l coverage = coverage ++ [(m, l)].
Proof.
  induction coverage as [|[m0 l0] r IH]; cbn; [reflexivity|].
  destruct (String.eqb m m0); [discriminate|].
  intros H. now rewrite IH.
Qed.

(** The extraction of the blocks of one module from one folder. *)
Lemma extract_module_step (st : State) (m : string)
    (blocks : list RawBlockEntry) :
  state_ok st ->
  let st' := extract_module st (m, blocks) in
  state_ok st' /\
  known st' m = true /\
  PyDict.keys (snd st') =
    PyDict.keys (snd st) ++ (if known st m then [] else [m]) /\
  (forall m', m' <> m ->
     known st' m' = known st m' /\ forall a, count st' m' a = count st m' a) /\
  forall a, count st' m a = extracted_count st m blocks a.
Proof.
  destruct st as [h cov]. intros [Wc [Nd [Hv Wh]]]. cbn [fst snd] in *.
  cbn zeta. unfold extract_module, alloc.
  set (d := addr_counts_of blocks). set (l := List.length h).
  set (h1 := h ++ [d]).
  assert (L1 : List.length h1 = S l) by (unfold h1, l; rewrite length_app; cbn; lia).
  assert (W1 : forall l', PyDict.wf (deref h1 l'))
    by (apply alloc_wf; [exact Wh | apply addr_counts_of_wf]).
  assert (Dl : deref h1 l = d) by apply deref_alloc_new.
  assert (Do : forall l', (l' < l)%nat -> deref h1 l' = deref h l')
    by (intros l' Hl'; apply deref_alloc_old; unfold l in *; lia).
  destruct (merge_loop_keeps (target cov m l) l (PyDict.keys (deref h1 l)) h1)
    as [Lk [_ Wk]]. cbn zeta in Lk, Wk. rewrite <- merge_heap in Lk, Wk.
  pose proof (merge_coverage_dict h1 cov m l) as Es. unfold PyDict.mem in Es.
  unfold state_ok, known, count, extracted_count, known, count, PyDict.mem.
  cbn [fst snd].
  destruct (PyDict.get String.eqb m cov) as [c|] eqn:Eg; rewrite Es.
  - (* the module is known *)
    assert (Hc : (c < l)%nat) by (apply (Hv m); now apply module_get_In).
    destruct (@merge_known h1 cov m c l Eg ltac:(lia) ltac:(lia)
                ltac:(rewrite Dl; apply addr_counts_of_wf)) as [_ [_ [O G]]].
    cbn zeta in O, G. rewrite Eg.
    split; [|split; [reflexivity|split; [now rewrite app_nil_r|split]]].
    + split; [exact Wc|]. split; [exact Nd|]. split; [|exact (Wk W1)].
      cbn [fst snd]. intros m' l' Hin. rewrite Lk, L1.
      specialize (Hv m' l' Hin). unfold l. lia.
    + intros m' Hne. split; [reflexivity|]. intros a.
      destruct (PyDict.get String.eqb m' cov) as [c'|] eqn:Eg'; [|reflexivity].
      assert (Hc' : (c' < l)%nat) by (apply (Hv m'); now apply module_get_In).
      assert (c' <> c).
      { intros ->. apply Hne.
        apply (@shared_object cov m' m c Nd); now apply module_get_In. }
      now rewrite O, Do.
    + intros a. rewrite G, Dl, (Do c Hc). unfold d.
      now rewrite addr_counts_of_get.
  - (* the module is new *)
    assert (Ht : target cov m l = l) by (unfold target; now rewrite Eg).
    destruct (@merge_counts h1 cov m l ltac:(lia) ltac:(rewrite Ht; lia)
                ltac:(rewrite Dl; apply addr_counts_of_wf)) as [O G].
    cbn zeta in O, G. rewrite Ht in O, G. rewrite Nat.eqb_refl in G.
    rewrite module_get_set.
    split; [|split; [reflexivity|split; [|split]]].
    + split; [|split; [|split]]; cbn [fst snd].
      * now apply (PyDictFacts.wf_set String.eqb String.eqb_eq).
      * rewrite set_absent by exact Eg. rewrite map_app. cbn [map snd].
        apply NoDup_app; [exact Nd | repeat constructor; cbn; tauto|].
        intros x Hx [<- | []]. apply in_map_iff in Hx.
        destruct Hx as [[m' l'] [Hs Hin]]. cbn in Hs. subst l'.
        specialize (Hv m' l Hin). unfold l in Hv. lia.
      * intros m' l'. rewrite set_absent by exact Eg. rewrite Lk, L1.
        intros Hin. apply in_app_or in Hin. destruct Hin as [Hin | [Hin | []]].
        -- specialize (Hv m' l' Hin). unfold l. lia.
        -- injection Hin as _ <-. lia.
      * exact (Wk W1).
    + apply (PyDictFacts.keys_set_absent String.eqb String.eqb_eq).
      now apply (PyDictFacts.get_None_keys String.eqb String.eqb_eq).
    + intros m' Hne. rewrite module_get_other by congruence.
      split; [reflexivity|]. intros a.
      destruct (PyDict.get String.eqb m' cov) as [c'|] eqn:Eg'; [|reflexivity].
      assert (Hc' : (c' < l)%nat) by (apply (Hv m'); now apply module_get_In).
      rewrite O by lia. now rewrite Do.
    + intros a. rewrite G, Dl. unfold d. now rewrite addr_counts_of_get.
Qed.


Lemma module_get_cons_other (m m0 : string) (b0 : list RawBlockEntry)
    (r : list (string * list RawBlockEntry)) :
  m <> m0 ->
  PyDict.get String.eqb m ((m0, b0) :: r) = PyDict.get String.eqb m r.
Proof.
  intros Hne. cbn. destruct (String.eqb_spec m m0); [contradiction | reflexivity].
Qed.

(** The extraction of the modules of one folder, one after the other. *)
Lemma extract_modules_fold (tb : list (string * list RawBlockEntry))
    (st : State) :
  state_ok st -> PyDict.wf tb ->
  let st' := fold_left extract_module tb st in
  state_ok st' /\
  PyDict.keys (snd st') =
    PyDict.keys (snd st) ++
    filter (fun m => negb (known st m)) (PyDict.keys tb) /\
  (forall m, known st' m = (known st m || PyDict.mem String.eqb m tb)%bool) /\
  forall m a,
    count st' m a =
    match PyDict.get String.eqb m tb with
    | Some blocks => extracted_count st m blocks a
    | None => count st m a
    end.
Proof.
  revert st. induction tb as [|[m0 b0] r IH]; intros st Hok Hw; cbn zeta.
  - cbn. rewrite app_nil_r. repeat split; [apply Hok.. |].
    intros m. now rewrite orb_false_r.
  - cbn [fold_left]. unfold PyDict.wf in Hw. cbn in Hw.
    inversion Hw as [|x y Hm0 Hr]; subst.
    destruct (extract_module_step m0 b0 Hok) as [Ok1 [K1 [Ks1 [Oth1 C1]]]].
    cbn zeta in *. set (st1 := extract_module st (m0, b0)) in *.
    destruct (IH st1 Ok1 Hr) as [Ok' [Ks' [K' C']]]. cbn zeta in *.
    assert (G0 : PyDict.get String.eqb m0 r = None)
      by now apply (PyDictFacts.get_None_keys String.eqb String.eqb_eq).
    split; [exact Ok'|]. split; [|split].
    + rewrite Ks', Ks1, <- app_assoc. f_equal. cbn [PyDict.keys map fst filter].
      assert (F : filter (fun m => negb (known st1 m)) (PyDict.keys r) =
                  filter (fun m => negb (known st m)) (PyDict.keys r)).
      { apply filter_ext_in. intros m Hm.
        destruct (Oth1 m) as [Hk _]; [intros ->; contradiction|].
        now rewrite Hk. }
      fold (PyDict.keys r). rewrite F. now destruct (known st m0).
    + intros m. rewrite K'. unfold PyDict.mem at 2.
      destruct (String.eqb_spec m m0) as [-> | Hne].
      * rewrite K1. cbn. rewrite String.eqb_refl. now rewrite orb_true_r.
      * destruct (Oth1 m Hne) as [-> _]. unfold PyDict.mem.
        now rewrite module_get_cons_other.
    + intros m a. rewrite C'.
      destruct (String.eqb_spec m m0) as [-> | Hne].
      * rewrite G0, C1. cbn. now rewrite String.eqb_refl.
      * rewrite module_get_cons_other by exact Hne.
        destruct (Oth1 m Hne) as [Hk Hc].
        destruct (PyDict.get String.eqb m r); [|apply Hc].
        unfold extracted_count. now rewrite Hk, Hc.
Qed.

(** X5. The extraction of one folder, from a state as the extraction builds
    them and traces that form a dictionary: it returns after two events, in
    a state of the same kind; the modules of the folder that were not known
    are added after the known ones, in the order of the folder; and the
    count of an address of a module of the folder is the count so far plus
    one when the blocks of the module cover the address and the module was
    known, and two, not one, when they cover it and the module is new.  The
    counts of the other modules do not change. *)
Theorem extraction_counts (E : Env) (directory : string) (st : State)
    (tb : list (string * list RawBlockEntry)) :
  state_ok st ->
  tb_coverage_files E directory = inr tb ->
  PyDict.wf tb ->
  exists st',
    _get_addr_coverage E directory st =
      (inr st',
       [EvLog INFO "Generating translation block coverage information";
        EvTbFiles directory]) /\
    state_ok st' /\
    PyDict.keys (snd st') =
      PyDict.keys (snd st) ++
      filter (fun m => negb (known st m)) (PyDict.keys tb) /\
    forall m a,
      count st' m a =
      match PyDict.get String.eqb m tb with
      | Some blocks =>
          if known st m
          then added (if coveredb blocks a then Some 1 else None) (count st m a)
          else if coveredb blocks a then Some 2 else None
      | None => count st m a
      end.
Proof.
  intros Hok Ht Hw. exists (fold_left extract_module tb st).
  destruct (extract_modules_fold Hok Hw) as [Ok' [Ks' [_ C']]]. cbn zeta in *.
  split; [|split; [exact Ok'|split; [exact Ks'|]]].
  - unfold _get_addr_coverage. now rewrite Ht.
  - intros m a. rewrite C'. destruct (PyDict.get String.eqb m tb); [|reflexivity].
    unfold extracted_count, block_count.
    destruct (known st m); [reflexivity|]. now destruct (coveredb l a).
Qed.

Lemma extraction_counts_witness :
  exists st',
    _get_addr_coverage Demo.env "/proj/s2e-out-10" ([], []) =
      (inr st',
       [EvLog INFO "Generating translation block coverage information";
        EvTbFiles "/proj/s2e-out-10"]) /\
    count st' "/bin/good" 100 = Some 2.
Proof.
  destruct (@extraction_counts Demo.env "/proj/s2e-out-10" ([], [])
              [("/bin/bad"%string, [(5, 0, 2)]);
               ("/bin/good"%string, [(100, 0, 4)])])
    as [st' [Hr [_ [_ Hc]]]].
  - split; [constructor|]. split; [constructor|].
    split; [intros m l []|]. intros [|l]; constructor.
  - reflexivity.
  - dict_wf.
  - exists st'. split; [exact Hr|]. now rewrite Hc.
Defined.

End ExtractorMore.

(** ** More on the writer *)

Module WriterMore.
Import PyStr Lcov Spec Cover StrFacts MonadFacts LineFacts WriterFacts.

Lemma write_file_events (E : Env) (f : string) (ign : bool)
    (entry : string * list (Z * Z)) :
  forallb (is_log_or_write f) (snd (write_file E f ign entry)) = true.
Proof.
  rewrite write_file_run. cbn [snd].
  destruct (skipped E ign (fst entry)); [reflexivity|].
  cbn [forallb is_log_or_write andb].
  induction (map line (record_text entry)) as [|x r IH]; [reflexivity|].
  cbn [map forallb is_log_or_write]. now rewrite String.eqb_refl.
Qed.

(** X6. When the report file can be opened, the writer returns, and its
    events are: the log record of the start, the opening of the file, then
    only log records and writes to that file, and last the closing of the
    file.  It opens no other file and leaves none open. *)
Theorem writer_trace_shape (E : Env) (lcov_path : string)
    (file_line_info : FileLineCoverage) (ignore_missing_files : bool) :
  open_w E lcov_path = None ->
  exists mid,
    _save_coverage_info E lcov_path file_line_info ignore_missing_files =
      (inr tt,
       EvLog INFO ("Writing line coverage to " ++ lcov_path) ::
       EvOpen lcov_path :: mid ++ [EvClose lcov_path]) /\
    forallb (is_log_or_write lcov_path) mid = true.
Proof.
  intros Ho. rewrite save_run by exact Ho.
  eexists (_ :: _). split; [reflexivity|].
  cbn [forallb is_log_or_write]. rewrite String.eqb_refl. cbn [andb].
  induction file_line_info as [|entry r IH]; [reflexivity|].
  cbn [flat_map]. now rewrite forallb_app, write_file_events, IH.
Qed.

Lemma writer_trace_shape_witness :
  exists mid,
    _save_coverage_info Demo.env "/out/good.info" Demo.report true =
      (inr tt,
       EvLog INFO "Writing line coverage to /out/good.info" ::
       EvOpen "/out/good.info" :: mid ++ [EvClose "/out/good.info"]) /\
    forallb (is_log_or_write "/out/good.info") mid = true.
Proof.
  exact (@writer_trace_shape Demo.env "/out/good.info" Demo.report true eq_refl).
Defined.

Lemma emitted_all (E : Env) (fli : FileLineCoverage) : emitted E false fli = fli.
Proof.
  unfold emitted, skipped. cbn [andb negb].
  induction fli as [|x r IH]; [reflexivity|].
  cbn [filter]. now rewrite IH.
Qed.

(** X7. Without [ignore_missing_files] the writer does not look at the
    file system: every file of the dictionary gets its record, whether it
    exists or not, no warning is logged, and with two file systems on which
    the report file can be opened the writer does the same. *)
Theorem writer_ignores_file_system (E1 E2 : Env) (lcov_path : string)
    (file_line_info : FileLineCoverage) :
  open_w E1 lcov_path = None ->
  open_w E2 lcov_path = None ->
  _save_coverage_info E1 lcov_path file_line_info false =
  _save_coverage_info E2 lcov_path file_line_info false /\
  file_text lcov_path
    (snd (_save_coverage_info E1 lcov_path file_line_info false))
  = cat (map line ("TN:"%string :: flat_map record_text file_line_info)) /\
  forall msg,
    ~ In (EvLog WARNING msg)
         (snd (_save_coverage_info E1 lcov_path file_line_info false)).
Proof.
  intros H1 H2. split; [|split].
  - rewrite !save_run by assumption. do 4 f_equal.
  - rewrite save_text by exact H1. unfold lcov_report. now rewrite emitted_all.
  - intros msg. rewrite save_run by exact H1. cbn [snd].
    intros [H | [H | [H | H]]]; try discriminate.
    apply in_app_or in H. destruct H as [H | [H | []]]; [|discriminate].
    apply in_flat_map in H. destruct H as [entry [_ H]].
    rewrite write_file_run in H. cbn [snd skipped andb] in H.
    destruct H as [H | H]; [discriminate|].
    apply in_map_iff in H. destruct H as [x [H _]]. discriminate.
Qed.

Lemma writer_ignores_file_system_witness :
  _save_coverage_info Demo.env "/out/good.info"
    [("/gone.c"%string, [(1, 1)])] false =
  _save_coverage_info Demo.env_renamed "/out/good.info"
    [("/gone.c"%string, [(1, 1)])] false.
Proof.
  exact (proj1 (@writer_ignores_file_system Demo.env Demo.env_renamed
                  "/out/good.info" [("/gone.c"%string, [(1, 1)])]
                  eq_refl eq_refl)).
Defined.

Lemma lines_hit_le (lines : list (Z * Z)) :
  (lines_hit lines <= List.length lines)%nat.
Proof. unfold lines_hit. apply filter_length_le. Qed.

Lemma lines_hit_all (lines : list (Z * Z)) :
  lines_hit lines = List.length lines <->
  forall item, In item lines -> snd item <> 0.
Proof.
  unfold lines_hit. induction lines as [|[l c] r IH]; cbn [filter snd].
  - split; [intros _ item [] | reflexivity].
  - pose proof (filter_length_le (fun item => negb (snd item =? 0)) r) as Hle.
    destruct (Z.eqb_spec c 0) as [-> | Hc]; cbn [negb List.length].
    + split; [lia|]. intros H. exfalso. now apply (H (l, 0) (or_introl eq_refl)).
    + split.
      * intros H item [<- | Hin]; [exact Hc|]. apply IH; [lia | exact Hin].
      * intros H. f_equal. apply IH. intros item Hin. apply H. now right.
Qed.

Lemma lines_hit_none (lines : list (Z * Z)) :
  lines_hit lines = 0%nat <-> forall item, In item lines -> snd item = 0.
Proof.
  unfold lines_hit. induction lines as [|[l c] r IH]; cbn [filter snd].
  - split; [intros _ item [] | reflexivity].
  - destruct (Z.eqb_spec c 0) as [-> | Hc]; cbn [negb List.length].
    + rewrite IH. split.
      * intros H item [<- | Hin]; [reflexivity | now apply H].
      * intros H item Hin. apply H. now right.
    + split; [discriminate|]. intros H. exfalso. apply Hc.
      now apply (H (l, c) (or_introl eq_refl)).
Qed.

(** X8. The two counters of a record: the loop over the lines of a file
    writes one [DA] line per line of the dictionary and ends with
    [num_instrumented_lines] the number of lines and [num_non_zero_lines]
    between 0 and that number; the two are equal exactly when no line has
    the count 0, and [num_non_zero_lines] is 0 exactly when all have. *)
Theorem record_counters (f : string) (lines : list (Z * Z)) :
  exists num_non_zero_lines num_instrumented_lines,
    foldM (write_line f) (PyDict.items lines) (0, 0) =
      (inr (num_non_zero_lines, num_instrumented_lines),
       map (fun item => EvWrite f (line (da_text item))) lines) /\
    num_instrumented_lines = Z.of_nat (List.length lines) /\
    0 <= num_non_zero_lines <= num_instrumented_lines /\
    (num_non_zero_lines = num_instrumented_lines <->
     forall item, In item lines -> snd item <> 0) /\
    (num_non_zero_lines = 0 <->
     forall item, In item lines -> snd item = 0).
Proof.
  exists (Z.of_nat (lines_hit lines)), (Z.of_nat (List.length lines)).
  pose proof (lines_hit_le lines) as Hle.
  split; [|split; [reflexivity|split; [lia|split]]].
  - unfold PyDict.items. rewrite write_lines_run, !map_map. reflexivity.
  - rewrite <- lines_hit_all. lia.
  - rewrite <- lines_hit_none. lia.
Qed.

End WriterMore.

(** ** More on the run selector *)

Module SelectorMore.
Import PyStr Lcov Spec Cover StrFacts MonadFacts LineFacts RangeFacts IntFacts.
Import SelectorProps.







Section Selector.
Variable E : Env.


Lemma candidate_no_event (dirname index : string) (acc : list string) (i : Z) :
  snd (candidate E dirname index acc i) = [].
Proof.
  unfold candidate, int_. destruct (PyStr.int index) as [n|]; [|reflexivity].
  cbn [bind ret]. now destruct (path_exists E _).
Qed.

Lemma candidates_no_event (dirname index : string) (idx : list Z)
    (acc : list string) :
  snd (foldM (candidate E dirname index) idx acc) = [].
Proof.
  revert acc. induction idx as [|i r IH]; intros acc; [reflexivity|].
  cbn [foldM]. unfold bind.
  pose proof (candidate_no_event dirname index acc i) as Hc.
  destruct (candidate E dirname index acc i) as [[e | acc'] t];
    cbn [snd] in Hc; subst t; [reflexivity|].
  specialize (IH acc').
  destruct (foldM (candidate E dirname index) r acc') as [res t'].
  cbn [snd] in *. now subst.
Qed.

(** The selector leaves no event. *)
Lemma selector_no_event (options : Options) :
  snd (_get_output_folders E options) = [].
Proof.
  unfold _get_output_folders.
  destruct (negb (aggregate_outputs options =? 0)).
  - destruct (split "-" _) as [|a [|b [|index [|x r]]]];
      cbn [List.length Nat.ltb Nat.leb]; try reflexivity.
    apply candidates_no_event.
  - now destruct (s2e_out_dir options).
Qed.


End Selector.






Lemma no_sep_rsplit (name : string) :
  all_chars (fun c => negb (OsPath.is_sep c)) name = true ->
  OsPath.rsplit name = (EmptyString, name).
Proof.
  induction name as [|c r IH]; cbn [all_chars OsPath.rsplit]; [reflexivity|].
  rewrite andb_true_iff, negb_true_iff. intros [Hc Hr].
  now rewrite (IH Hr), Hc.
Qed.

Lemma rsplit_last (d name : string) :
  all_chars (fun c => negb (OsPath.is_sep c)) name = true ->
  OsPath.rsplit (d ++ "/" ++ name) = ((d ++ "/")%string, name).
Proof.
  intros Hn. induction d as [|c r IH]; cbn [append OsPath.rsplit].
  - now rewrite (no_sep_rsplit name Hn).
  - cbn [append] in IH. rewrite IH. now destruct r.
Qed.

Lemma all_sep_ends_with_sep (d : string) :
  d <> EmptyString -> all_chars OsPath.is_sep d = true ->
  OsPath.ends_with_sep d = true.
Proof.
  induction d as [|c r IH]; [congruence|]. intros _.
  cbn [all_chars OsPath.ends_with_sep]. rewrite andb_true_iff. intros [Hc Hr].
  destruct r as [|c' r']; [exact Hc|]. apply IH; [discriminate | exact Hr].
Qed.

Lemma rstrip_trailing_sep (d : string) :
  d <> EmptyString -> OsPath.ends_with_sep d = false ->
  rstrip OsPath.is_sep (d ++ "/") = d.
Proof.
  induction d as [|c r IH]; [congruence|]. intros _ He.
  cbn [append rstrip]. destruct r as [|c' r'].
  - cbn in *. now rewrite He.
  - rewrite IH; [reflexivity | discriminate | exact He].
Qed.

(** [dirname] and [join] on the path of a folder in a directory. *)
Lemma dirname_join (d name name' : string) :
  OsPath.ends_with_sep d = false ->
  all_chars (fun c => negb (OsPath.is_sep c)) name = true ->
  OsPath.starts_with_sep name' = false ->
  OsPath.join (OsPath.dirname (d ++ "/" ++ name)) name'
  = (d ++ "/" ++ name')%string.
Proof.
  intros Hd Hn Hs. unfold OsPath.dirname. rewrite rsplit_last by exact Hn.
  cbn [fst]. destruct d as [|c r].
  - cbn. unfold OsPath.join. rewrite Hs. reflexivity.
  - assert (Ha : all_chars OsPath.is_sep (String c r ++ "/") = false).
    { rewrite all_chars_app.
      destruct (all_chars OsPath.is_sep (String c r)) eqn:Ea; [|reflexivity].
      apply all_sep_ends_with_sep in Ea; [congruence | discriminate]. }
    rewrite Ha, rstrip_trailing_sep by (discriminate || exact Hd).
    unfold OsPath.join. rewrite Hs, Hd. reflexivity.
Qed.

Lemma run_name_no_sep (k : Z) :
  all_chars (fun c => negb (OsPath.is_sep c)) ("s2e-out-" ++ fmt_d k) = true.
Proof.
  rewrite all_chars_app. cbn [andb].
  change (all_chars (fun c => negb (OsPath.is_sep c)) "s2e-out-") with true.
  cbn [andb]. eapply all_chars_impl; [|apply fmt_d_chars].
  intros c Hc. unfold OsPath.is_sep.
  destruct (Ascii.eqb_spec c "/") as [-> | _]; [discriminate | reflexivity].
Qed.

(** X11. In last-N mode, when [s2e-last] resolves to the folder
    [s2e-out-<index>] of a directory [d], the selector returns the folders
    [d/s2e-out-<index - i>] for [i] from [0] to [N - 1] that exist, in that
    order; the folder that [s2e-last] resolves to itself comes first when it
    exists and [N] is positive. *)
Theorem last_n_paths (E : Env) (options : Options) (d : string) (index : Z) :
  aggregate_outputs options <> 0 ->
  0 <= index ->
  OsPath.ends_with_sep d = false ->
  realpath E (project_path E "s2e-last")
    = (d ++ "/" ++ "s2e-out-" ++ fmt_d index)%string ->
  _get_output_folders E options =
    (inr (filter (path_exists E)
            (map (fun i => (d ++ "/" ++ "s2e-out-" ++ fmt_d (index - i))%string)
                 (range 0 (aggregate_outputs options)))), []) /\
  (0 < aggregate_outputs options ->
   path_exists E (realpath E (project_path E "s2e-last")) = true ->
   exists rest,
     _get_output_folders E options =
     (inr (realpath E (project_path E "s2e-last") :: rest), [])).
Proof.
  intros Hn Hi Hd Hp.
  assert (Hrun : _get_output_folders E options =
    (inr (filter (path_exists E)
            (map (fun i => (d ++ "/" ++ "s2e-out-" ++ fmt_d (index - i))%string)
                 (range 0 (aggregate_outputs options)))), [])).
  { unfold _get_output_folders. apply Z.eqb_neq in Hn. rewrite Hn. cbn [negb].
    rewrite Hp. unfold OsPath.basename.
    rewrite rsplit_last by apply run_name_no_sep. cbn [snd].
    rewrite split_run_name by exact Hi.
    rewrite candidates_run with (n := index) by (now apply int_fmt_d).
    apply (f_equal2 pair); [|reflexivity]. apply f_equal.
    cbn [Datatypes.app]. apply f_equal. apply map_ext. intros i.
    apply dirname_join; [exact Hd | apply run_name_no_sep | reflexivity]. }
  split; [exact Hrun|]. intros Hpos He. rewrite Hrun.
  assert (Hr : exists r, range 0 (aggregate_outputs options) = 0 :: r).
  { unfold range.
    destruct (Z.to_nat (aggregate_outputs options - 0)) eqn:Ez; [lia|].
    cbn. now eexists. }
  destruct Hr as [r ->]. cbn [map filter]. rewrite Z.sub_0_r, <- Hp, He.
  now eexists.
Qed.

Lemma last_n_paths_witness :
  _get_output_folders Demo.env Demo.options =
  (inr ["/proj/s2e-out-10"; "/proj/s2e-out-9"]%string, []).
Proof.
  rewrite (proj1 (@last_n_paths Demo.env Demo.options "/proj" 10
                    ltac:(discriminate) ltac:(lia) eq_refl eq_refl)).
  reflexivity.
Defined.

End SelectorMore.

(** ** More on the HTML driver and on the loop over the modules *)

Module OrchestratorMore.
Import PyStr Lcov Spec Cover StrFacts MonadFacts LineFacts WriterFacts.
Import WriterMore OrchestratorProps ExtractorMore SelectorMore.

Lemma forallb_weaken {A} (p q : A -> bool) (l : list A) :
  (forall x, p x = true -> q x = true) ->
  forallb p l = true -> forallb q l = true.
Proof.
  intros H. induction l as [|x r IH]; cbn; [reflexivity|].
  rewrite !andb_true_iff. intros [Hx Hr]. auto.
Qed.

(** X12. The HTML driver calls [genhtml] once.  It returns when [genhtml]
    does, and raises when [genhtml] does: never an [ErrorReturnCode], in
    place of which it raises a [CommandError], and always an exception with
    the message of the one of [genhtml]. *)
Theorem gen_html_wraps (E : Env) (lcov_info_path lcov_html_dir : string) :
  snd (_gen_html E lcov_info_path lcov_html_dir)
    = [EvGenHtml lcov_info_path lcov_html_dir] /\
  (genhtml E lcov_info_path lcov_html_dir = None <->
   fst (_gen_html E lcov_info_path lcov_html_dir) = inr tt) /\
  (forall m,
      fst (_gen_html E lcov_info_path lcov_html_dir)
      <> inl (ErrorReturnCode m)) /\
  (forall m,
      genhtml E lcov_info_path lcov_html_dir = Some (ErrorReturnCode m) ->
      fst (_gen_html E lcov_info_path lcov_html_dir) = inl (CommandError m)) /\
  (forall e,
      genhtml E lcov_info_path lcov_html_dir = Some e ->
      exists e',
        fst (_gen_html E lcov_info_path lcov_html_dir) = inl e' /\
        str e' = str e).
Proof.
  unfold _gen_html. rewrite bind_tell.
  destruct (genhtml E lcov_info_path lcov_html_dir) as [[m | m | m | m | m] |];
    cbn; repeat split; try discriminate; try congruence;
    try (intros e [= <-]; eexists; split; reflexivity).
Qed.

Section Modules.
Variable E : Env.

(** A module whose report file cannot be opened. *)
Lemma handle_module_open_fails (options : Options)
    (lcov_out_dir module_path : string) (addr_counts : AddressCount)
    (fli : FileLineCoverage) (e : exn) :
  get_coverage E module_path addr_counts (include_covered_files_only options)
    = inr fli ->
  open_w E (info_path lcov_out_dir module_path) = Some e ->
  handle_module E options lcov_out_dir (module_path, addr_counts) =
  (inr tt,
   [EvGetCoverage module_path addr_counts (include_covered_files_only options);
    EvLog INFO
      ("Writing line coverage to " ++ info_path lcov_out_dir module_path);
    EvLog ERROR (str e)]).
Proof.
  intros Hg Ho. unfold handle_module, report_module.
  rewrite bind_tell, Hg. unfold info_path in *.
  erewrite (bind_ok _ (a := fli)) by reflexivity. cbv beta.
  rewrite (save_raise E _ fli (html options) Ho). reflexivity.
Qed.

Lemma save_events (p : string) (fli : FileLineCoverage) (ign flag : bool) :
  open_w E p = None ->
  forallb (fun ev => is_module_event ev && (flag || negb (is_genhtml ev)))
          (snd (_save_coverage_info E p fli ign)) = true.
Proof.
  intros Ho. rewrite save_run by exact Ho. cbn [snd forallb].
  cbn [is_module_event is_genhtml negb andb]. rewrite orb_true_r. cbn [andb].
  rewrite forallb_app. cbn [forallb is_module_event is_genhtml negb andb].
  rewrite orb_true_r, andb_true_r.
  induction fli as [|entry r IH]; [reflexivity|].
  cbn [flat_map]. rewrite forallb_app, IH, andb_true_r.
  eapply forallb_weaken; [|apply (write_file_events E p ign entry)].
  intros [] H; try discriminate H; cbn; now rewrite orb_true_r.
Qed.

(** The events of the body of the loop for one module: the call of the
    symbol manager, then log records, events of the report file and, only
    when HTML is asked for, the call of [genhtml]. *)
Lemma handle_module_events (options : Options) (lcov_out_dir module_path : string)
    (addr_counts : AddressCount) :
  exists rest,
    snd (handle_module E options lcov_out_dir (module_path, addr_counts)) =
      EvGetCoverage module_path addr_counts
        (include_covered_files_only options) :: rest /\
    forallb (fun ev =>
               is_module_event ev && (html options || negb (is_genhtml ev)))
            rest = true.
Proof.
  destruct (get_coverage E module_path addr_counts
              (include_covered_files_only options)) as [e | fli] eqn:Hg.
  - rewrite (handle_module_raise E options lcov_out_dir _ _ Hg).
    eexists. split; [reflexivity|]. cbn. now rewrite orb_true_r.
  - destruct (open_w E (info_path lcov_out_dir module_path)) as [e|] eqn:Ho.
    + rewrite (handle_module_open_fails options lcov_out_dir _ _ Hg Ho).
      eexists. split; [reflexivity|]. cbn. now rewrite orb_true_r.
    + rewrite (handle_module_report E options lcov_out_dir _ _ Hg Ho).
      eexists. split; [reflexivity|].
      rewrite forallb_app. fold (info_path lcov_out_dir module_path).
      rewrite (@save_events (info_path lcov_out_dir module_path) fli
                 (html options) (html options) Ho).
      cbn [forallb is_module_event is_genhtml negb andb]. rewrite orb_true_r.
      cbn [andb]. unfold after_report.
      destruct (html options); [|reflexivity].
      destruct (genhtml E _ _) as [[m | m | m | m | m] |]; reflexivity.
Qed.

(** The text of the report file of a module after the body of the loop,
    whatever the file held. *)
Lemma handle_module_text (options : Options) (lcov_out_dir module_path : string)
    (addr_counts : AddressCount) (fli : FileLineCoverage) (text : string) :
  get_coverage E module_path addr_counts (include_covered_files_only options)
    = inr fli ->
  open_w E (info_path lcov_out_dir module_path) = None ->
  fold_left (file_step (info_path lcov_out_dir module_path))
    (snd (handle_module E options lcov_out_dir (module_path, addr_counts))) text
  = lcov_report E (html options) fli.
Proof.
  intros Hg Ho.
  rewrite (handle_module_report E options lcov_out_dir _ _ Hg Ho). cbn [snd].
  fold (info_path lcov_out_dir module_path).
  rewrite save_run by exact Ho. cbn [snd app].
  cbn [fold_left file_step]. rewrite fold_left_app.
  cbn [fold_left file_step]. rewrite String.eqb_refl.
  rewrite !fold_left_app, file_step_records. cbn [fold_left file_step].
  rewrite after_report_text. unfold lcov_report. reflexivity.
Qed.

Lemma extract_directory_raise (st : State) (directory : string) (e : exn) :
  tb_coverage_files E directory = inl e ->
  extract_directory E st directory = (inl e, extraction_events directory).
Proof.
  intros Ht. unfold extract_directory, _get_addr_coverage. now rewrite Ht.
Qed.

(** The extraction stops at the first folder whose traces cannot be
    loaded. *)
Lemma extract_all_raise (pre post : list string) (d : string) (e : exn)
    (st : State) :
  (forall x, In x pre -> exists tb, tb_coverage_files E x = inr tb) ->
  tb_coverage_files E d = inl e ->
  foldM (extract_directory E) (pre ++ d :: post) st =
  (inl e, flat_map extraction_events (pre ++ [d])).
Proof.
  intros Hpre Hd. revert st. induction pre as [|x r IH]; intros st.
  - cbn [Datatypes.app foldM flat_map]. rewrite (extract_directory_raise st d Hd).
    reflexivity.
  - cbn [Datatypes.app foldM flat_map].
    destruct (Hpre x (or_introl eq_refl)) as [tb Hx].
    rewrite (extract_directory_run E st x Hx).
    erewrite bind_ok by reflexivity.
    rewrite IH by (intros y Hy; apply Hpre; now right). reflexivity.
Qed.

Lemma fold_positive (tb : list (string * list RawBlockEntry)) (st : State) :
  state_ok st -> PyDict.wf tb -> positive st ->
  positive (fold_left extract_module tb st).
Proof.
  intros Hok Hw Hp m a c.
  destruct (extract_modules_fold Hok Hw) as [_ [_ [_ C]]]. cbn zeta in C.
  rewrite C. destruct (PyDict.get String.eqb m tb) as [blocks|]; [|apply Hp].
  unfold extracted_count, block_count.
  destruct (known st m); destruct (coveredb blocks a); cbn.
  - destruct (count st m a) as [c0|] eqn:Ec; intros [= <-]; [|lia].
    specialize (Hp m a c0 Ec). lia.
  - apply Hp.
  - intros [= <-]. lia.
  - discriminate.
Qed.

(** The extraction of the selected folders: its events, and the state it
    ends in when it returns. *)
Lemma extract_all (folders : list string) (st : State) :
  (forall d tb, tb_coverage_files E d = inr tb -> PyDict.wf tb) ->
  state_ok st -> positive st ->
  forallb is_extraction_event
    (snd (foldM (extract_directory E) folders st)) = true /\
  forall st', fst (foldM (extract_directory E) folders st) = inr st' ->
              state_ok st' /\ positive st'.
Proof.
  intros Hw. revert st. induction folders as [|d r IH]; intros st Hok Hp.
  - cbn. split; [reflexivity|]. intros st' [= <-]. now split.
  - cbn [foldM]. destruct (tb_coverage_files E d) as [e | tb] eqn:Ht.
    + rewrite (extract_directory_raise st d Ht). cbn.
      split; [reflexivity | discriminate].
    + rewrite (extract_directory_run E st d Ht).
      erewrite bind_ok by reflexivity. cbn [fst snd].
      destruct (extract_modules_fold Hok (Hw d tb Ht)) as [Ok1 _].
      cbn zeta in Ok1.
      destruct (IH _ Ok1 (fold_positive Hok (Hw d tb Ht) Hp)) as [Hev Hst].
      split; [|exact Hst]. rewrite forallb_app. now rewrite Hev.
Qed.

End Modules.

(** X13. When the report file cannot be opened, the writer raises the
    exception of [open] after its first log record, without any event on
    a file; in the loop over the modules that exception is logged, the
    module gets no success record and no HTML report, and the body
    returns. *)
Theorem report_file_cannot_be_opened (E : Env) (lcov_path : string) (e : exn) :
  open_w E lcov_path = Some e ->
  (forall file_line_info ignore_missing_files,
      _save_coverage_info E lcov_path file_line_info ignore_missing_files =
      (inl e, [EvLog INFO ("Writing line coverage to " ++ lcov_path)])) /\
  (forall options lcov_out_dir module_path addr_counts file_line_info,
      OsPath.join lcov_out_dir (OsPath.basename module_path ++ ".info")
        = lcov_path ->
      get_coverage E module_path addr_counts
        (include_covered_files_only options) = inr file_line_info ->
      handle_module E options lcov_out_dir (module_path, addr_counts) =
      (inr tt,
       [EvGetCoverage module_path addr_counts
          (include_covered_files_only options);
        EvLog INFO ("Writing line coverage to " ++ lcov_path);
        EvLog ERROR (str e)])).
Proof.
  intros Ho. split.
  - intros fli ign. now apply save_raise.
  - intros options dir m d fli Hp Hg. subst lcov_path.
    exact (@handle_module_open_fails E options dir m d fli e Hg Ho).
Qed.

Lemma report_file_cannot_be_opened_witness :
  handle_module Demo2.env_read_only Demo2.options_html "/out"
    ("/bin/good"%string, [(100, 2)]) =
  (inr tt,
   [EvGetCoverage "/bin/good" [(100, 2)] false;
    EvLog INFO "Writing line coverage to /out/good.info";
    EvLog ERROR "Permission denied"]).
Proof.
  exact (proj2 (@report_file_cannot_be_opened Demo2.env_read_only
                  "/out/good.info" (OSError "Permission denied") eq_refl)
           Demo2.options_html "/out" "/bin/good" [(100, 2)] Demo.report
           eq_refl eq_refl).
Defined.

(** X14. Without the HTML option, [genhtml] is not called for any module,
    whatever happens to the modules. *)
Theorem html_off_never_renders (E : Env) (options : Options)
    (lcov_out_dir : string) (coverage : list (string * AddressCount)) :
  html options = false ->
  forallb (fun ev => negb (is_genhtml ev))
          (snd (handle_modules E options lcov_out_dir coverage)) = true.
Proof.
  intros Hh. rewrite handle_modules_run. cbn [snd].
  induction coverage as [|[m d] r IH]; [reflexivity|].
  cbn [flat_map]. rewrite forallb_app, IH, andb_true_r.
  destruct (handle_module_events E options lcov_out_dir m d) as [rest [-> Hr]].
  cbn [forallb is_genhtml negb andb].
  eapply forallb_weaken; [|exact Hr].
  intros ev. rewrite Hh, andb_true_iff. cbn [orb]. tauto.
Qed.

Lemma html_off_never_renders_witness :
  forallb (fun ev => negb (is_genhtml ev))
          (snd (handle_modules Demo.env Demo.options "/out"
                  [("/bin/bad"%string, [(5, 2)]);
                   ("/bin/good"%string, [(100, 2)])])) = true.
Proof.
  exact (@html_off_never_renders Demo.env Demo.options "/out"
           [("/bin/bad"%string, [(5, 2)]); ("/bin/good"%string, [(100, 2)])]
           eq_refl).
Defined.

(** X15. With the HTML option, for a module that is mapped and whose
    report file can be opened: the report is written with the missing
    source files skipped, its success is logged, then [genhtml] is called
    once on the report file and the directory [<module>_lcov]; the body
    logs the success of [genhtml], or its error, and returns. *)
Theorem html_on_renders_after_report (E : Env) (options : Options)
    (lcov_out_dir module_path : string) (addr_counts : AddressCount)
    (file_line_info : FileLineCoverage) :
  html options = true ->
  get_coverage E module_path addr_counts (include_covered_files_only options)
    = inr file_line_info ->
  open_w E (info_path lcov_out_dir module_path) = None ->
  handle_module E options lcov_out_dir (module_path, addr_counts) =
  (inr tt,
   EvGetCoverage module_path addr_counts (include_covered_files_only options) ::
   snd (_save_coverage_info E (info_path lcov_out_dir module_path)
          file_line_info true) ++
   [EvLog SUCCESS
      ("Line coverage saved to " ++ info_path lcov_out_dir module_path);
    EvGenHtml (info_path lcov_out_dir module_path)
              (html_dir lcov_out_dir module_path);
    match genhtml E (info_path lcov_out_dir module_path)
                    (html_dir lcov_out_dir module_path) with
    | None =>
        EvLog SUCCESS
          ("An HTML report is available in " ++
           html_dir lcov_out_dir module_path ++ "/index.html")
    | Some e => EvLog ERROR (str e)
    end]) /\
  file_text (info_path lcov_out_dir module_path)
    (snd (handle_module E options lcov_out_dir (module_path, addr_counts)))
  = cat (map line
           ("TN:"%string ::
            flat_map record_text
              (filter (fun entry => path_exists E (fst entry))
                      file_line_info))).
Proof.
  intros Hh Hg Ho. split.
  - rewrite (handle_module_report E options lcov_out_dir _ _ Hg Ho).
    unfold after_report, info_path, html_dir. rewrite Hh.
    do 4 f_equal.
    destruct (genhtml E _ _) as [[m | m | m | m | m] |]; reflexivity.
  - unfold file_text.
    rewrite (handle_module_text E options lcov_out_dir _ _ EmptyString Hg Ho).
    unfold lcov_report. rewrite Hh. now rewrite WriterProps.emitted_true.
Qed.

Lemma html_on_renders_after_report_witness :
  handle_module Demo2.env_no_genhtml Demo2.options_html "/out"
    ("/bin/good"%string, [(100, 2)]) =
  (inr tt,
   EvGetCoverage "/bin/good" [(100, 2)] false ::
   snd (_save_coverage_info Demo2.env_no_genhtml "/out/good.info"
          Demo.report true) ++
   [EvLog SUCCESS "Line coverage saved to /out/good.info";
    EvGenHtml "/out/good.info" "/out/good_lcov";
    EvLog ERROR "genhtml: exit code 2"]).
Proof.
  exact (proj1 (@html_on_renders_after_report Demo2.env_no_genhtml
                  Demo2.options_html "/out" "/bin/good" [(100, 2)] Demo.report
                  eq_refl eq_refl eq_refl)).
Defined.

(** X16. The report file of the module that the loop handles last holds the
    report of that module, whatever the modules before it wrote: the name
    of the report file is made from the base name of the module alone, so
    of two modules with the same base name the later one overwrites the
    report of the earlier one. *)
Theorem last_report_wins (E : Env) (options : Options) (lcov_out_dir : string)
    (before : list (string * AddressCount)) (module_path : string)
    (addr_counts : AddressCount) (file_line_info : FileLineCoverage) :
  get_coverage E module_path addr_counts (include_covered_files_only options)
    = inr file_line_info ->
  open_w E (info_path lcov_out_dir module_path) = None ->
  file_text (info_path lcov_out_dir module_path)
    (snd (handle_modules E options lcov_out_dir
            (before ++ [(module_path, addr_counts)])))
  = lcov_report E (html options) file_line_info /\
  forall other other_counts,
    OsPath.basename other = OsPath.basename module_path ->
    file_text (info_path lcov_out_dir other)
      (snd (handle_modules E options lcov_out_dir
              [(other, other_counts); (module_path, addr_counts)]))
    = lcov_report E (html options) file_line_info.
Proof.
  intros Hg Ho.
  assert (H : forall l,
             file_text (info_path lcov_out_dir module_path)
               (snd (handle_modules E options lcov_out_dir
                       (l ++ [(module_path, addr_counts)])))
             = lcov_report E (html options) file_line_info).
  { intros l. rewrite handle_modules_run. cbn [snd].
    rewrite flat_map_app. cbn [flat_map]. rewrite app_nil_r.
    unfold file_text. rewrite fold_left_app.
    now apply handle_module_text. }
  split; [apply H|].
  intros other other_counts Hb.
  replace (info_path lcov_out_dir other)
    with (info_path lcov_out_dir module_path)
    by (unfold info_path; now rewrite Hb).
  apply (H [(other, other_counts)]).
Qed.

Lemma last_report_wins_witness :
  file_text "/out/app.info"
    (snd (handle_modules Demo.env Demo.options "/out"
            [("/opt/a/app"%string, [(1, 2)]); ("/opt/b/app"%string, [(7, 2)])]))
  = lcov_report Demo.env false Demo.report.
Proof.
  exact (proj2 (@last_report_wins Demo.env Demo.options "/out" []
                  "/opt/b/app" [(7, 2)] Demo.report eq_refl eq_refl)
           "/opt/a/app" [(1, 2)] eq_refl).
Defined.

(** X17. The failures of the extraction are not isolated: when the traces
    of a selected folder cannot be loaded, [handle] raises that exception.
    The folders before it have been loaded, those after it are not, no
    module is mapped and no report is written. *)
Theorem extraction_failure_aborts (E : Env) (options : Options)
    (pre post : list string) (directory : string) (e : exn) :
  symbol_manager E = None ->
  _get_output_folders E options = (inr (pre ++ directory :: post), []) ->
  (forall x, In x pre -> exists tb, tb_coverage_files E x = inr tb) ->
  tb_coverage_files E directory = inl e ->
  handle E options =
  (inl e, flat_map extraction_events (pre ++ [directory])).
Proof.
  intros Hs Hf Hpre Hd. unfold handle. rewrite Hs, Hf. cbn [bind ret].
  now rewrite (extract_all_raise E pre post directory ([], []) Hpre Hd).
Qed.

Lemma extraction_failure_aborts_witness :
  handle Demo2.env_broken_traces Demo.options =
  (inl (CommandError "No translation block coverage files found"),
   flat_map extraction_events ["/proj/s2e-out-10"; "/proj/s2e-out-9"]%string).
Proof.
  apply (@extraction_failure_aborts Demo2.env_broken_traces Demo.options
           ["/proj/s2e-out-10"%string] [] "/proj/s2e-out-9"
           (CommandError "No translation block coverage files found")
           eq_refl eq_refl).
  - intros x [<- | []]. eexists. reflexivity.
  - reflexivity.
Defined.

(** X18. When the traces of every folder form a dictionary, every
    address-count dictionary that [handle] passes to the symbol manager is
    a dictionary with all counts at least 1. *)
Theorem handle_passes_positive_counts (E : Env) (options : Options)
    (module_path : string) (addr_counts : AddressCount) (cov : bool) :
  (forall d tb, tb_coverage_files E d = inr tb -> PyDict.wf tb) ->
  In (EvGetCoverage module_path addr_counts cov) (snd (handle E options)) ->
  PyDict.wf addr_counts /\
  forall addr c, PyDict.get Z.eqb addr addr_counts = Some c -> 1 <= c.
Proof.
  intros Hw. unfold handle.
  destruct (symbol_manager E); [intros []|]. cbn [bind ret].
  pose proof (selector_no_event E options) as Hs.
  destruct (_get_output_folders E options) as [[e | folders] ts];
    cbn [snd] in Hs; subst ts; [intros []|].
  assert (Hok0 : state_ok ([], [])).
  { split; [constructor|]. split; [constructor|].
    split; [intros m l []|]. intros [|l]; constructor. }
  assert (Hp0 : positive ([], [])) by (intros m a c; discriminate).
  destruct (extract_all E folders Hw Hok0 Hp0) as [Hev Hst].
  cbn [bind].
  match goal with
  | |- context [@foldM ?A ?S ?f ?l ?s] => set (r := @foldM A S f l s)
  end.
  change (forallb is_extraction_event (snd r) = true) in Hev.
  change (forall st', fst r = inr st' -> state_ok st' /\ positive st') in Hst.
  clearbody r. destruct r as [[e | [h aggregated]] t]; cbn [fst snd bind] in *.
  - intros Hin.
    rewrite forallb_forall in Hev. now specialize (Hev _ Hin).
  - destruct (Hst _ eq_refl) as [[Wc [_ [_ Wh]]] Hpos]. cbn [fst snd] in *.
    rewrite handle_modules_run. cbn [snd Datatypes.app]. intros Hin.
    apply in_app_or in Hin. destruct Hin as [Hin | Hin].
    { rewrite forallb_forall in Hev. now specialize (Hev _ Hin). }
    apply in_flat_map in Hin. destruct Hin as [[m d] [Hm Hin]].
    unfold contents in Hm. apply in_map_iff in Hm.
    destruct Hm as [[m' l] [Heq Hml]]. injection Heq as -> <-.
    destruct (handle_module_events E options
                (out_dir E options) m (deref h l)) as [rest [Hr Hrest]].
    unfold out_dir in Hr. rewrite Hr in Hin.
    destruct Hin as [Hin | Hin].
    + injection Hin as <- <- _. split; [apply Wh|].
      intros addr c Hc. apply (Hpos m addr c). unfold count. cbn [fst snd].
      now rewrite (PyDictFacts.In_get String.eqb String.eqb_eq _ _ Wc Hml).
    + rewrite forallb_forall in Hrest. specialize (Hrest _ Hin).
      discriminate.
Qed.

Lemma handle_passes_positive_counts_witness :
  PyDict.wf [(5, 2); (6, 2)] /\
  forall addr c, PyDict.get Z.eqb addr [(5, 2); (6, 2)] = Some c -> 1 <= c.
Proof.
  apply (@handle_passes_positive_counts Demo.env Demo.options
           "/bin/bad" [(5, 2); (6, 2)] false).
  - intros d tb. cbn.
    destruct (String.eqb d "/proj/s2e-out-10"); intros [= <-]; dict_wf.
  - vm_compute. tauto.
Defined.

End OrchestratorMore.
